(** * Application peer synchronisation (edge-matrix/application)

    A shallow embedding of [application.go] and of the syncer of the
    [application] package, with the Go channel operations it relies on,
    followed by the properties established about them. *)

From stdpp Require Import gmap strings list.
From Stdlib Require Import ZArith.

#[local] Set Warnings "-clear-no-such-hyp".

(** ** Base types *)

(** Go's [uint64]; values are only stored, copied and compared here. *)
Definition uint64 := Z.

(** Go's [float32], carried as its IEEE-754 bit pattern; it is only copied. *)
Definition float32 := Z.

(** libp2p's [peer.ID] is a Go string type. An identifier is represented by
    its textual form, so [peer_String] is the identity. *)
Definition peer_ID := string.
Definition peer_String (p : peer_ID) : string := p.

(** Go's [error], [None] standing for [nil]. *)
Definition error := string.

(** [time.Duration]: a count of nanoseconds. *)
Definition Duration := Z.
Definition Second : Duration := 1000000000%Z.
Definition Minute : Duration := (60 * Second)%Z.

(** ** application.go *)

Record Application := {
  Name : string;
  Tag : string;
  Version : string;
  PeerID : peer_ID;
  IpAddr : string;
  AppOrigin : string;
  ModelHash : string;
  Mac : string;
  MemInfo : string;
  CpuInfo : string;
  StartupTime : uint64;
  Uptime : uint64;
  GuageHeight : uint64;
  GuageMax : uint64
}.

(** [Application.Copy]: the composite literal names ten fields; the four it
    does not name take Go's zero value, the empty string. *)
Definition Copy (a : Application) : Application :=
  {| Name := Name a;
     Tag := Tag a;
     Version := Version a;
     PeerID := PeerID a;
     StartupTime := StartupTime a;
     Uptime := Uptime a;
     GuageHeight := GuageHeight a;
     GuageMax := GuageMax a;
     IpAddr := IpAddr a;
     AppOrigin := AppOrigin a;
     ModelHash := "";
     Mac := "";
     MemInfo := "";
     CpuInfo := "" |}.

(** ** application/proto: the [AppStatus] message of syncer.proto *)

Module appProto.

Record AppStatus := {
  Name : string;
  StartupTime : uint64;
  Uptime : uint64;
  GuageHeight : uint64;
  GuageMax : uint64;
  Relay : string;
  NodeId : string;
  Addr : string;
  AppOrigin : string;
  ModelHash : string;
  Mac : string;
  MemInfo : string;
  CpuInfo : string;
  AveragePower : float32;
  GpuInfo : string;
  Version : string
}.

End appProto.

(** ** Go runtime: panics and channels *)

(** A Go computation either completes with a value or panics. *)
Inductive exec (T : Type) : Type :=
| Done (x : T)
| Panic (msg : string).
Arguments Done {T} x.
Arguments Panic {T} msg.

Module GoChan.

(** The runtime's [hchan]: capacity, buffered elements, the values of the
    senders parked on the channel, the number of parked receivers, and the
    closed flag. *)
Record chan (A : Type) := {
  cap : nat;
  buf : list A;
  sendq : list A;
  recvq : nat;
  closed : bool
}.
Arguments cap {A} c.
Arguments buf {A} c.
Arguments sendq {A} c.
Arguments recvq {A} c.
Arguments closed {A} c.

(** [make(chan A, n)] *)
Definition make {A : Type} (n : nat) : chan A :=
  {| cap := n; buf := []; sendq := []; recvq := 0; closed := false |}.

(** [chansend(c, x, block)]: a send on a closed channel panics; otherwise
    the value goes to a parked receiver, else into the buffer when there is
    room; else a blocking send parks with its value and a non-blocking one
    (a [select] with [default]) reports that it was not selected. *)
Definition chansend {A : Type} (c : chan A) (x : A) (block : bool)
  : exec (chan A * bool) :=
  if closed c then Panic "send on closed channel"
  else match recvq c with
       | S n =>
           Done ({| cap := cap c; buf := buf c; sendq := sendq c;
                    recvq := n; closed := false |}, true)
       | O =>
           if (length (buf c) <? cap c)%nat then
             Done ({| cap := cap c; buf := buf c ++ [x]; sendq := sendq c;
                      recvq := 0; closed := false |}, true)
           else if block then
             Done ({| cap := cap c; buf := buf c; sendq := sendq c ++ [x];
                      recvq := 0; closed := false |}, true)
           else Done (c, false)
       end.

(** What a receive ([<-c], or one round of [for x := range c]) finds. *)
Inductive received (A : Type) : Type :=
| Recv (x : A) (c : chan A)
| RecvClosed
| RecvBlocks.
Arguments Recv {A} x c.
Arguments RecvClosed {A}.
Arguments RecvBlocks {A}.

(** [chanrecv]: the oldest buffered element, its slot refilled from the
    first parked sender; with an empty buffer the value of a parked sender;
    else the channel is either closed and drained, or the receiver blocks. *)
Definition chanrecv {A : Type} (c : chan A) : received A :=
  match buf c, sendq c with
  | x :: rest, [] =>
      Recv x {| cap := cap c; buf := rest; sendq := [];
                recvq := recvq c; closed := closed c |}
  | x :: rest, y :: parked =>
      Recv x {| cap := cap c; buf := rest ++ [y]; sendq := parked;
                recvq := recvq c; closed := closed c |}
  | [], y :: parked =>
      Recv y {| cap := cap c; buf := []; sendq := parked;
                recvq := recvq c; closed := closed c |}
  | [], [] => if closed c then RecvClosed else RecvBlocks
  end.

(** [close(c)]: closing a closed channel panics, and so does every sender
    parked on the channel; parked receivers are released. *)
Definition close {A : Type} (c : chan A) : exec (chan A) :=
  if closed c then Panic "close of closed channel"
  else match sendq c with
       | _ :: _ => Panic "send on closed channel"
       | [] => Done {| cap := cap c; buf := buf c; sendq := [];
                       recvq := 0; closed := true |}
       end.

(** A goroutine starts to wait for a value on [c]: it parks unless a value
    or the close is already there. *)
Definition park_receiver {A : Type} (c : chan A) : chan A :=
  match chanrecv c with
  | RecvBlocks => {| cap := cap c; buf := buf c; sendq := sendq c;
                     recvq := S (recvq c); closed := closed c |}
  | Recv _ c' => c'
  | RecvClosed => c
  end.

End GoChan.

(** ** Collaborators of the syncer

    The [application] package's [AppPeer], [PeerMap], [SyncAppPeerClient],
    [SyncAppPeerService] and [ApplicationStore] are used by the syncer but
    declared in files that are not part of the sources at hand. *)

(** Modelled from the spec: [AppPeer], the record of a remote peer that is
    missing from the sources (section 3: peer identifier, name, origin,
    model hash, version, startup time, uptime, gauge height and max, relay
    and network address, hardware descriptors, average e-power, last seen).
    The syncer itself only names the field [ID]. *)
Record AppPeer := {
  ID : peer_ID;
  peerName : string;
  peerAppOrigin : string;
  peerModelHash : string;
  peerVersion : string;
  peerStartupTime : uint64;
  peerUptime : uint64;
  peerGuageHeight : uint64;
  peerGuageMax : uint64;
  peerRelay : string;
  peerAddr : string;
  peerCpuInfo : string;
  peerGpuInfo : string;
  peerMemInfo : string;
  peerMac : string;
  peerAveragePower : float32;
  LastSeen : Z
}.

Definition seen (now : Z) (p : AppPeer) : AppPeer :=
  {| ID := ID p; peerName := peerName p; peerAppOrigin := peerAppOrigin p;
     peerModelHash := peerModelHash p; peerVersion := peerVersion p;
     peerStartupTime := peerStartupTime p; peerUptime := peerUptime p;
     peerGuageHeight := peerGuageHeight p; peerGuageMax := peerGuageMax p;
     peerRelay := peerRelay p; peerAddr := peerAddr p;
     peerCpuInfo := peerCpuInfo p; peerGpuInfo := peerGpuInfo p;
     peerMemInfo := peerMemInfo p; peerMac := peerMac p;
     peerAveragePower := peerAveragePower p; LastSeen := now |}.

(** Modelled from the spec: [PeerMap], missing from the sources (section
    4.1). A map from peer identifier to [AppPeer]; [Put] inserts or replaces
    the entry of each given status under its identifier and sets its last
    seen time to now, [Get] returns the entry or nothing, [Remove] deletes
    it. All three are total. *)
Module PeerMap.

Definition Put (now : Z) (statuses : list AppPeer) (m : gmap string AppPeer)
  : gmap string AppPeer :=
  foldl (fun acc p => <[peer_String (ID p) := seen now p]> acc) m statuses.

Definition Get (id : string) (m : gmap string AppPeer) : option AppPeer :=
  m !! id.

Definition Remove (peerID : peer_ID) (m : gmap string AppPeer)
  : gmap string AppPeer :=
  delete (peer_String peerID) m.

End PeerMap.

(** What the environment decides for one run of the node: this node's
    identity, the capacity of the status update channel, whether starting
    the client or closing the service fails, and what a poll of the
    connected peers would answer. *)
Record Env := {
  self : peer_ID;
  updateChCap : nat;
  clientStartErr : option error;
  serviceCloseErr : option error;
  connectedPeerStatuses : list AppPeer
}.

(** Modelled from the spec: the state of [SyncAppPeerClient], missing from
    the sources (sections 4.3 and 4.5): whether it was started, subscribed
    and closed, the overlay messages waiting for the subscriber loop, the
    status update channel (nil until [Start]), the statuses handed to
    [PublishApplicationStatus], and the number of polls of the connected
    peers. *)
Record SyncAppPeerClient := {
  cStarted : bool;
  cSubscribed : bool;
  cClosed : bool;
  inbox : list appProto.AppStatus;
  peerStatusUpdateCh : option (GoChan.chan AppPeer);
  published : list appProto.AppStatus;
  polls : nat
}.

Module Client.

Definition New : SyncAppPeerClient :=
  {| cStarted := false; cSubscribed := false; cClosed := false; inbox := [];
     peerStatusUpdateCh := None; published := []; polls := 0 |}.

(** Modelled from the spec: [Start(subscribe_topic_flag)] (section 4.5)
    fails when the overlay does, and with an already-started error the
    second time; otherwise it creates the update channel and subscribes to
    the status topic if the flag is set. *)
Definition Start (env : Env) (topicSubFlag : bool) (c : SyncAppPeerClient)
  : SyncAppPeerClient * option error :=
  if cStarted c then (c, Some "already started")
  else match clientStartErr env with
       | Some e => (c, Some e)
       | None =>
           ({| cStarted := true; cSubscribed := topicSubFlag;
               cClosed := cClosed c; inbox := inbox c;
               peerStatusUpdateCh := Some (GoChan.make (updateChCap env));
               published := published c; polls := polls c |}, None)
       end.

(** Modelled from the spec: [GetConnectedPeerStatuses] (section 4.5), a
    one-shot poll of the connected peers. *)
Definition GetConnectedPeerStatuses (env : Env) (c : SyncAppPeerClient)
  : list AppPeer * SyncAppPeerClient :=
  (connectedPeerStatuses env,
   {| cStarted := cStarted c; cSubscribed := cSubscribed c;
      cClosed := cClosed c; inbox := inbox c;
      peerStatusUpdateCh := peerStatusUpdateCh c;
      published := published c; polls := S (polls c) |}).

Definition GetPeerStatusUpdateCh (c : SyncAppPeerClient)
  : option (GoChan.chan AppPeer) :=
  peerStatusUpdateCh c.

Definition setUpdateCh (ch : GoChan.chan AppPeer) (c : SyncAppPeerClient)
  : SyncAppPeerClient :=
  {| cStarted := cStarted c; cSubscribed := cSubscribed c;
     cClosed := cClosed c; inbox := inbox c;
     peerStatusUpdateCh := Some ch;
     published := published c; polls := polls c |}.

Definition setInbox (l : list appProto.AppStatus) (c : SyncAppPeerClient)
  : SyncAppPeerClient :=
  {| cStarted := cStarted c; cSubscribed := cSubscribed c;
     cClosed := cClosed c; inbox := l;
     peerStatusUpdateCh := peerStatusUpdateCh c;
     published := published c; polls := polls c |}.

(** Modelled from the spec: [PublishApplicationStatus] (sections 4.2 and
    4.5) forwards the status to the overlay topic; failures are swallowed. *)
Definition PublishApplicationStatus (m : appProto.AppStatus)
  (c : SyncAppPeerClient) : SyncAppPeerClient :=
  {| cStarted := cStarted c; cSubscribed := cSubscribed c;
     cClosed := cClosed c; inbox := inbox c;
     peerStatusUpdateCh := peerStatusUpdateCh c;
     published := published c ++ [m]; polls := polls c |}.

(** Modelled from the spec: [Close] (section 4.5) stops the subscriber
    loop, which gives up a send it is parked on, and closes the update
    channel. *)
Definition Close (c : SyncAppPeerClient) : SyncAppPeerClient :=
  {| cStarted := cStarted c; cSubscribed := cSubscribed c;
     cClosed := true; inbox := inbox c;
     peerStatusUpdateCh :=
       match peerStatusUpdateCh c with
       | Some ch =>
           Some {| GoChan.cap := GoChan.cap ch; GoChan.buf := GoChan.buf ch;
                   GoChan.sendq := []; GoChan.recvq := 0;
                   GoChan.closed := true |}
       | None => None
       end;
     published := published c; polls := polls c |}.

(** Modelled from the spec: the translation of an [AppStatus] broadcast
    to an [AppPeer] (section 4.3); the peer identifier is the message's
    [node_id]. *)
Definition toAppPeer (m : appProto.AppStatus) : AppPeer :=
  {| ID := appProto.NodeId m;
     peerName := appProto.Name m;
     peerAppOrigin := appProto.AppOrigin m;
     peerModelHash := appProto.ModelHash m;
     peerVersion := appProto.Version m;
     peerStartupTime := appProto.StartupTime m;
     peerUptime := appProto.Uptime m;
     peerGuageHeight := appProto.GuageHeight m;
     peerGuageMax := appProto.GuageMax m;
     peerRelay := appProto.Relay m;
     peerAddr := appProto.Addr m;
     peerCpuInfo := appProto.CpuInfo m;
     peerGpuInfo := appProto.GpuInfo m;
     peerMemInfo := appProto.MemInfo m;
     peerMac := appProto.Mac m;
     peerAveragePower := appProto.AveragePower m;
     LastSeen := 0%Z |}.

(** Modelled from the spec: the subscriber's filter (section 4.3). A message
    is discarded when its peer identifier is empty or is this node's, or
    when it violates [gauge_height <= gauge_max]. *)
Definition accept (env : Env) (m : appProto.AppStatus) : option AppPeer :=
  if decide (appProto.NodeId m = "") then None
  else if decide (appProto.NodeId m = self env) then None
  else if (appProto.GuageMax m <? appProto.GuageHeight m)%Z then None
  else Some (toAppPeer m).

(** The overlay delivers a broadcast to the subscription. *)
Definition deliver (m : appProto.AppStatus) (c : SyncAppPeerClient)
  : SyncAppPeerClient :=
  if cStarted c && cSubscribed c && negb (cClosed c)
  then setInbox (inbox c ++ [m]) c
  else c.

(** Modelled from the spec: one round of the subscriber loop (section 4.3).
    While its previous send is parked on the full update channel it stays
    blocked; otherwise it takes the next message in arrival order, discards
    it or sends its translation on the update channel. *)
Definition subscriberStep (env : Env) (c : SyncAppPeerClient)
  : SyncAppPeerClient :=
  if cStarted c && cSubscribed c && negb (cClosed c) then
    match peerStatusUpdateCh c, inbox c with
    | Some ch, m :: rest =>
        match GoChan.sendq ch with
        | _ :: _ => c
        | [] =>
            match accept env m with
            | None => setInbox rest c
            | Some p =>
                match GoChan.chansend ch p true with
                | Done (ch', _) => setUpdateCh ch' (setInbox rest c)
                | Panic _ => c
                end
            end
        end
    | _, _ => c
    end
  else c.

End Client.

(** Modelled from the spec: the state of [SyncAppPeerService], missing from
    the sources (section 4.4); only its life cycle matters to the syncer. *)
Record SyncAppPeerService := {
  svStarted : bool;
  svClosed : bool
}.

Module Service.

Definition New : SyncAppPeerService :=
  {| svStarted := false; svClosed := false |}.

Definition Start (sv : SyncAppPeerService) : SyncAppPeerService :=
  {| svStarted := true; svClosed := svClosed sv |}.

(** Modelled from the spec: [Close] cancels the in-flight streams; the Go
    method returns an error, which the environment decides. *)
Definition Close (env : Env) (sv : SyncAppPeerService)
  : SyncAppPeerService * option error :=
  ({| svStarted := svStarted sv; svClosed := true |}, serviceCloseErr env).

End Service.

(** The endpoint application as [doPublishAppStatus] reads it from
    [applicationStore.GetEndpointApplication()]: the [Application] of
    application.go together with the two fields the syncer reads from it
    that application.go does not declare, [GpuInfo] and [AveragePower]. *)
Record EndpointApplication := {
  app : Application;
  GpuInfo : string;
  AveragePower : float32
}.

(** ** The syncer *)

Definition DefaultAppStatusPublishDuration : Duration := (15 * 60 * Second)%Z.

(** The fields of the [syncer] struct that its methods use; [host] holds
    the textual form of [host.Addrs()], [applicationStore] the endpoint
    application that [GetEndpointApplication()] returns. *)
Record syncer := {
  peerMap : gmap string AppPeer;
  syncAppPeerClient : SyncAppPeerClient;
  syncAppPeerService : SyncAppPeerService;
  newStatusCh : GoChan.chan unit;
  host : list string;
  applicationStore : EndpointApplication
}.

Definition withPeerMap (m : gmap string AppPeer) (s : syncer) : syncer :=
  {| peerMap := m; syncAppPeerClient := syncAppPeerClient s;
     syncAppPeerService := syncAppPeerService s;
     newStatusCh := newStatusCh s; host := host s;
     applicationStore := applicationStore s |}.

Definition withClient (c : SyncAppPeerClient) (s : syncer) : syncer :=
  {| peerMap := peerMap s; syncAppPeerClient := c;
     syncAppPeerService := syncAppPeerService s;
     newStatusCh := newStatusCh s; host := host s;
     applicationStore := applicationStore s |}.

Definition withService (sv : SyncAppPeerService) (s : syncer) : syncer :=
  {| peerMap := peerMap s; syncAppPeerClient := syncAppPeerClient s;
     syncAppPeerService := sv;
     newStatusCh := newStatusCh s; host := host s;
     applicationStore := applicationStore s |}.

Definition withNewStatusCh (ch : GoChan.chan unit) (s : syncer) : syncer :=
  {| peerMap := peerMap s; syncAppPeerClient := syncAppPeerClient s;
     syncAppPeerService := syncAppPeerService s;
     newStatusCh := ch; host := host s;
     applicationStore := applicationStore s |}.

(** [NewSyncer]: the signal channel is unbuffered and the peer map empty. *)
Definition NewSyncer (client : SyncAppPeerClient)
  (service : SyncAppPeerService) (h : list string)
  (store : EndpointApplication) : syncer :=
  {| peerMap := ∅;
     syncAppPeerClient := client;
     syncAppPeerService := service;
     newStatusCh := GoChan.make 0;
     host := h;
     applicationStore := store |}.

(** [initializePeerMap] *)
Definition initializePeerMap (env : Env) (now : Z) (s : syncer) : syncer :=
  let '(peerStatuses, c) :=
    Client.GetConnectedPeerStatuses env (syncAppPeerClient s) in
  withPeerMap (PeerMap.Put now peerStatuses (peerMap s)) (withClient c s).

(** [Close] *)
Definition Close (env : Env) (s : syncer) : exec (syncer * option error) :=
  match GoChan.close (newStatusCh s) with
  | Panic msg => Panic msg
  | Done ch =>
      let s1 := withNewStatusCh ch s in
      let '(sv, err) := Service.Close env (syncAppPeerService s1) in
      let s2 := withService sv s1 in
      match err with
      | Some e => Done (s2, Some e)
      | None =>
          Done (withClient (Client.Close (syncAppPeerClient s2)) s2, None)
      end
  end.

(** [doPublishAppStatus]: [Relay] is the literal empty string and the
    literal does not name [GuageHeight] and [GuageMax], which therefore take
    the zero value. *)
Definition doPublishAppStatus (s : syncer) : syncer :=
  let addr := match host s with
              | a :: _ => a
              | [] => ""
              end in
  let e := applicationStore s in
  withClient
    (Client.PublishApplicationStatus
       {| appProto.Name := Name (app e);
          appProto.NodeId := peer_String (PeerID (app e));
          appProto.Uptime := Uptime (app e);
          appProto.StartupTime := StartupTime (app e);
          appProto.Relay := "";
          appProto.Addr := addr;
          appProto.AppOrigin := AppOrigin (app e);
          appProto.Mac := Mac (app e);
          appProto.CpuInfo := CpuInfo (app e);
          appProto.GpuInfo := GpuInfo e;
          appProto.MemInfo := MemInfo (app e);
          appProto.ModelHash := ModelHash (app e);
          appProto.AveragePower := AveragePower e;
          appProto.Version := Version (app e);
          appProto.GuageHeight := 0%Z;
          appProto.GuageMax := 0%Z |}
       (syncAppPeerClient s))
    s.

(** [notifyNewStatusEvent]: a [select] with a send case and a [default]. *)
Definition notifyNewStatusEvent (s : syncer) : exec syncer :=
  match GoChan.chansend (newStatusCh s) tt false with
  | Done (ch, _) => Done (withNewStatusCh ch s)
  | Panic msg => Panic msg
  end.

(** [putToPeerMap] *)
Definition putToPeerMap (now : Z) (status : AppPeer) (s : syncer)
  : exec syncer :=
  notifyNewStatusEvent (withPeerMap (PeerMap.Put now [status] (peerMap s)) s).

(** [GetAppPeer] *)
Definition GetAppPeer (id : string) (s : syncer) : option AppPeer :=
  PeerMap.Get id (peerMap s).

(** [removeFromPeerMap] *)
Definition removeFromPeerMap (peerID : peer_ID) (s : syncer) : syncer :=
  withPeerMap (PeerMap.Remove peerID (peerMap s)) s.

(** ** The running node

    The syncer together with the goroutines that [Start] spawns. *)

Inductive goroutine := NotSpawned | Running | Exited.

(** [ticker] is the period of the publisher's ticker once it is created;
    [consumed] lists the statuses the fan-in loop has received from the
    update channel; [crashed] holds the message of a panic, which ends the
    process. *)
Record World := {
  sy : syncer;
  fanIn : goroutine;
  publisher : goroutine;
  ticker : option Duration;
  consumed : list AppPeer;
  clock : Z;
  crashed : option string
}.

Definition withSyncer (s : syncer) (w : World) : World :=
  {| sy := s; fanIn := fanIn w; publisher := publisher w;
     ticker := ticker w; consumed := consumed w; clock := clock w;
     crashed := crashed w |}.

Definition crash (msg : string) (w : World) : World :=
  {| sy := sy w; fanIn := fanIn w; publisher := publisher w;
     ticker := ticker w; consumed := consumed w; clock := clock w;
     crashed := Some msg |}.

(** The node before [Start]: a fresh client and service handed to
    [NewSyncer]. *)
Definition boot (h : list string) (store : EndpointApplication) : World :=
  {| sy := NewSyncer Client.New Service.New h store;
     fanIn := NotSpawned; publisher := NotSpawned; ticker := None;
     consumed := []; clock := 0%Z; crashed := None |}.

(** [Start]: when the client fails to start nothing else happens; otherwise
    the service is started and the two goroutines are spawned. The spawn of
    a connection event process is commented out in the source. *)
Definition Start (env : Env) (topicSubFlag : bool) (w : World)
  : World * option error :=
  let '(c, err) := Client.Start env topicSubFlag (syncAppPeerClient (sy w)) in
  match err with
  | Some e => (withSyncer (withClient c (sy w)) w, Some e)
  | None =>
      let s := withService (Service.Start (syncAppPeerService (sy w)))
                 (withClient c (sy w)) in
      ({| sy := s; fanIn := Running; publisher := Running;
          ticker := ticker w; consumed := consumed w; clock := clock w;
          crashed := crashed w |}, None)
  end.

(** [startPeerStatusUpdateProcess], one round of its [for ... range] loop:
    it blocks on an empty (or nil) channel, ends when the channel is closed
    and drained, and otherwise puts the received status into the peer map. *)
Definition fanInStep (w : World) : World :=
  match fanIn w with
  | Running =>
      match Client.GetPeerStatusUpdateCh (syncAppPeerClient (sy w)) with
      | None => w
      | Some ch =>
          match GoChan.chanrecv ch with
          | GoChan.RecvBlocks => w
          | GoChan.RecvClosed =>
              {| sy := sy w; fanIn := Exited; publisher := publisher w;
                 ticker := ticker w; consumed := consumed w;
                 clock := clock w; crashed := crashed w |}
          | GoChan.Recv peerStatus ch' =>
              let s := withClient
                         (Client.setUpdateCh ch' (syncAppPeerClient (sy w)))
                         (sy w) in
              let w1 := {| sy := s; fanIn := Running;
                           publisher := publisher w; ticker := ticker w;
                           consumed := consumed w ++ [peerStatus];
                           clock := clock w; crashed := crashed w |} in
              match putToPeerMap (clock w) peerStatus s with
              | Done s' => withSyncer s' w1
              | Panic msg =>
                  crash msg
                    (withSyncer
                       (withPeerMap
                          (PeerMap.Put (clock w) [peerStatus] (peerMap s)) s)
                       w1)
              end
          end
      end
  | _ => w
  end.

(** The goroutine of [Start]'s function literal, up to its first wait on
    the ticker: one publish, then [time.NewTicker]. *)
Definition publisherBegin (w : World) : World :=
  match publisher w, ticker w with
  | Running, None =>
      {| sy := doPublishAppStatus (sy w); fanIn := fanIn w;
         publisher := Running;
         ticker := Some DefaultAppStatusPublishDuration;
         consumed := consumed w; clock := clock w; crashed := crashed w |}
  | _, _ => w
  end.

(** One round of its [for] loop: a tick is received, one publish follows.
    The loop has no exit. *)
Definition publisherTick (w : World) : World :=
  match publisher w, ticker w with
  | Running, Some _ => withSyncer (doPublishAppStatus (sy w)) w
  | _, _ => w
  end.

(** What can happen to a running node: a broadcast arrives, a goroutine is
    scheduled, the ticker fires, the overlay reports a connection event,
    an observer starts to wait on the signal channel, the local runtime
    changes the endpoint application or the listening addresses, or
    [Close] is called. *)
Inductive Event :=
| EvOverlayMsg (m : appProto.AppStatus)
| EvSubscriber
| EvFanIn
| EvPublisher
| EvTick
| EvConnected (p : peer_ID)
| EvDisconnected (p : peer_ID)
| EvObserver
| EvEndpoint (e : EndpointApplication)
| EvAddrs (l : list string)
| EvClose.

Definition tick (w : World) : World :=
  {| sy := sy w; fanIn := fanIn w; publisher := publisher w;
     ticker := ticker w; consumed := consumed w;
     clock := (clock w + 1)%Z; crashed := crashed w |}.

(** One event. Nothing happens in a crashed process. No goroutine of the
    syncer listens to connection events, so they leave the node as it is. *)
Definition step (env : Env) (w : World) (ev : Event) : World :=
  match crashed w with
  | Some _ => w
  | None =>
      tick
        match ev with
        | EvOverlayMsg m =>
            withSyncer
              (withClient (Client.deliver m (syncAppPeerClient (sy w)))
                 (sy w)) w
        | EvSubscriber =>
            withSyncer
              (withClient
                 (Client.subscriberStep env (syncAppPeerClient (sy w)))
                 (sy w)) w
        | EvFanIn => fanInStep w
        | EvPublisher => publisherBegin w
        | EvTick => publisherTick w
        | EvConnected _ => w
        | EvDisconnected _ => w
        | EvObserver =>
            withSyncer
              (withNewStatusCh (GoChan.park_receiver (newStatusCh (sy w)))
                 (sy w)) w
        | EvEndpoint e =>
            withSyncer
              {| peerMap := peerMap (sy w);
                 syncAppPeerClient := syncAppPeerClient (sy w);
                 syncAppPeerService := syncAppPeerService (sy w);
                 newStatusCh := newStatusCh (sy w); host := host (sy w);
                 applicationStore := e |} w
        | EvAddrs l =>
            withSyncer
              {| peerMap := peerMap (sy w);
                 syncAppPeerClient := syncAppPeerClient (sy w);
                 syncAppPeerService := syncAppPeerService (sy w);
                 newStatusCh := newStatusCh (sy w); host := l;
                 applicationStore := applicationStore (sy w) |} w
        | EvClose =>
            match Close env (sy w) with
            | Done (s, _) => withSyncer s w
            | Panic msg => crash msg w
            end
        end
  end.

Definition run (env : Env) (w : World) (evs : list Event) : World :=
  foldl (step env) w evs.

(** The number of publishes a trace calls for: one when the publisher
    goroutine first runs, and one for every tick after that. *)
Fixpoint ticks (evs : list Event) : nat :=
  match evs with
  | [] => 0
  | EvTick :: rest => S (ticks rest)
  | _ :: rest => ticks rest
  end.

Fixpoint fires (evs : list Event) : nat :=
  match evs with
  | [] => 0
  | EvPublisher :: rest => S (ticks rest)
  | _ :: rest => fires rest
  end.

(** ** Notions used in the statements *)

(** The statuses in flight on the update channel: buffered, or held by the
    parked subscriber. *)
Definition inFlight (c : SyncAppPeerClient) : list AppPeer :=
  match peerStatusUpdateCh c with
  | Some ch => GoChan.buf ch ++ GoChan.sendq ch
  | None => []
  end.

(** A status that the subscriber lets through: it names a peer other than
    this node and its gauge does not exceed its maximum. *)
Definition wellFormed (env : Env) (p : AppPeer) : Prop :=
  ID p <> "" /\ ID p <> self env /\ (peerGuageHeight p <= peerGuageMax p)%Z.

(** The node right after [Start(topicSubFlag)] on a fresh syncer. *)
Definition started (env : Env) (topicSubFlag : bool) (h : list string)
  (store : EndpointApplication) : World :=
  fst (Start env topicSubFlag (boot h store)).

(** Everything stored, in flight or consumed went through the filter, and
    entries are stored under their own identifier. *)
Definition filtered (env : Env) (w : World) : Prop :=
  (forall k p, peerMap (sy w) !! k = Some p -> ID p = k /\ wellFormed env p) /\
  (forall p, p ∈ inFlight (syncAppPeerClient (sy w)) -> wellFormed env p) /\
  (forall p, p ∈ consumed w -> wellFormed env p).

(** The connected peers were never polled, and every entry of the peer map
    is a status that the fan-in loop received from the update channel. *)
Definition fromChannel (w : World) : Prop :=
  polls (syncAppPeerClient (sy w)) = 0 /\
  forall k p, peerMap (sy w) !! k = Some p ->
    exists q now, q ∈ consumed w /\ k = ID q /\ p = seen now q.

(** ** Sample inputs *)

Definition sampleEnv : Env :=
  {| self := "node"; updateChCap := 1; clientStartErr := None;
     serviceCloseErr := None; connectedPeerStatuses := [] |}.

(** An environment in which closing the service reports an error. *)
Definition failingCloseEnv : Env :=
  {| self := "node"; updateChCap := 1; clientStartErr := None;
     serviceCloseErr := Some "stream cancel failed";
     connectedPeerStatuses := [] |}.

Definition sampleApplication : Application :=
  {| Name := "app"; Tag := "tag"; Version := "1.0"; PeerID := "node";
     IpAddr := "10.0.0.1"; AppOrigin := "origin"; ModelHash := "hash";
     Mac := "00:11"; MemInfo := "16G"; CpuInfo := "x86";
     StartupTime := 100%Z; Uptime := 7%Z;
     GuageHeight := 1%Z; GuageMax := 4%Z |}.

Definition sampleEndpoint : EndpointApplication :=
  {| app := sampleApplication; GpuInfo := "gpu"; AveragePower := 0%Z |}.

Definition sampleSyncer : syncer :=
  NewSyncer Client.New Service.New ["/ip4/10.0.0.1/tcp/50001"] sampleEndpoint.

(** A broadcast of peer [P], with [gauge_height = 0] and [gauge_max = 4]. *)
Definition sampleStatus : appProto.AppStatus :=
  {| appProto.Name := "app"; appProto.StartupTime := 5%Z;
     appProto.Uptime := 1%Z; appProto.GuageHeight := 0%Z;
     appProto.GuageMax := 4%Z; appProto.Relay := "";
     appProto.NodeId := "P"; appProto.Addr := ""; appProto.AppOrigin := "";
     appProto.ModelHash := ""; appProto.Mac := ""; appProto.MemInfo := "";
     appProto.CpuInfo := ""; appProto.AveragePower := 0%Z;
     appProto.GpuInfo := ""; appProto.Version := "" |}.

(** The same broadcast with [gauge_height = 5 > gauge_max]. *)
Definition overfullStatus : appProto.AppStatus :=
  {| appProto.Name := "app"; appProto.StartupTime := 5%Z;
     appProto.Uptime := 1%Z; appProto.GuageHeight := 5%Z;
     appProto.GuageMax := 4%Z; appProto.Relay := "";
     appProto.NodeId := "P"; appProto.Addr := ""; appProto.AppOrigin := "";
     appProto.ModelHash := ""; appProto.Mac := ""; appProto.MemInfo := "";
     appProto.CpuInfo := ""; appProto.AveragePower := 0%Z;
     appProto.GpuInfo := ""; appProto.Version := "" |}.

(** A started node that has received and stored the status of peer [P]. *)
Definition nodeWithP : World :=
  run sampleEnv (started sampleEnv true [] sampleEndpoint)
    [EvOverlayMsg sampleStatus; EvSubscriber; EvFanIn].

(** A trace without [Close]: the first tick precedes the publisher's first
    run, two ticks follow it. *)
Definition sampleTrace : list Event :=
  [EvTick; EvPublisher; EvOverlayMsg sampleStatus; EvTick;
   EvSubscriber; EvFanIn; EvTick].

(** A started node on whose update channel a status with
    [gauge_height > gauge_max] is waiting, as if the subscriber had let it
    through. *)
Definition unfilteredNode : World :=
  withSyncer
    (withClient
       (Client.setUpdateCh
          {| GoChan.cap := 1; GoChan.buf := [Client.toAppPeer overfullStatus];
             GoChan.sendq := []; GoChan.recvq := 0; GoChan.closed := false |}
          (syncAppPeerClient (sy (started sampleEnv true [] sampleEndpoint))))
       (sy (started sampleEnv true [] sampleEndpoint)))
    (started sampleEnv true [] sampleEndpoint).

(** ** Phases of a run *)

(** A node whose [Start] failed or was never called: nothing is spawned,
    started, published or stored. *)
Definition idle (w : World) : Prop :=
  fanIn w = NotSpawned /\ publisher w = NotSpawned /\
  published (syncAppPeerClient (sy w)) = [] /\
  peerMap (sy w) = ∅ /\
  consumed w = [] /\
  svStarted (syncAppPeerService (sy w)) = false.

(** A started node on which [Close] was not called yet. *)
Definition running (w : World) : Prop :=
  crashed w = None /\
  GoChan.closed (newStatusCh (sy w)) = false /\
  GoChan.sendq (newStatusCh (sy w)) = [] /\
  fanIn w = Running /\
  cClosed (syncAppPeerClient (sy w)) = false /\
  exists ch, peerStatusUpdateCh (syncAppPeerClient (sy w)) = Some ch /\
             GoChan.closed ch = false.


(** ** command/miner/register/result.go *)

Module register.

(** The line feed and the double quote of the Go string literals. *)
Definition LF : string := String (Ascii.ascii_of_nat 10) "".
Definition DQ : string := String (Ascii.ascii_of_nat 34) "".

Record MinerRegisterResult := {
  Principal : string;
  Commit : string;
  NodeType : string;
  ResultMessge : string
}.

Section Result.

(** The constant [setOpt] is declared in another file of the package. *)
Variable setOpt : string.

(** [Message]: [fmt.Sprintf] with [%s] verbs only, which splices its string
    arguments into the format. *)
Definition Message (r : MinerRegisterResult) : string :=
  if decide (Commit r = setOpt) then
    "Commit for the add/update node [" +:+ NodeType r +:+ "] principal ["
      +:+ Principal r +:+ "] to the miner set" +:+ LF
      +:+ ResultMessge r +:+ " " +:+ LF
  else
    "Commit for the removal node from the miner set" +:+ LF
      +:+ ResultMessge r +:+ " " +:+ LF.

(** [GetOutput]: three writes to a [bytes.Buffer]. *)
Definition GetOutput (r : MinerRegisterResult) : string :=
  ((LF +:+ "[MINER REGISTER]" +:+ LF) +:+ Message r) +:+ LF.

(** [MarshalJSON]: the bytes of the formatted string, and a nil error. *)
Definition MarshalJSON (r : MinerRegisterResult) : string * option error :=
  ("{" +:+ DQ +:+ "message" +:+ DQ +:+ ": " +:+ DQ +:+ Message r +:+ DQ
     +:+ "}", None).

End Result.

End register.

(** ** server/server.go: account lookups of the telepool hub *)

Module server.

(** Go errors as far as [errors.Is] can tell them apart: the sentinel
    [jsonrpc.ErrStateNotFound], any other error, and an error that
    [fmt.Errorf] wraps with [%w]. *)
Inductive goerror :=
| ErrStateNotFound
| ErrOther (msg : string)
| ErrWrap (msg : string) (inner : goerror).

(** [errors.Is(err, jsonrpc.ErrStateNotFound)]: the sentinel is looked for
    along the chain of wrapped errors. *)
Fixpoint isStateNotFound (err : goerror) : bool :=
  match err with
  | ErrStateNotFound => true
  | ErrOther _ => false
  | ErrWrap _ inner => isStateNotFound inner
  end.

(** [state.Account] as far as the hub reads it; [Balance] is a [*big.Int],
    [None] standing for nil. *)
Record Account := {
  Nonce : uint64;
  Balance : option Z
}.

(** The [state.State] and [state.Snapshot] the hub consults, as what they
    answer: [NewSnapshotAt(root)] gives a snapshot or an error, and
    [GetAccount(addr)] on a snapshot a pointer, possibly nil, and an error,
    possibly nil. Hashes and addresses are carried in their textual form. *)
Record Snapshot := {
  GetAccount : string -> option Account * option goerror
}.

Record State := {
  NewSnapshotAt : string -> Snapshot + goerror
}.

(** [getAccountImpl] *)
Definition getAccountImpl (state : State) (root addr : string)
  : option Account * option goerror :=
  match NewSnapshotAt state root with
  | inr err =>
      (None,
       Some (ErrWrap ("unable to get snapshot for root '" +:+ root +:+ "'")
               err))
  | inl snap =>
      match GetAccount snap addr with
      | (_, Some err) => (None, Some err)
      | (None, None) => (None, Some ErrStateNotFound)
      | (Some account, None) => (Some account, None)
      end
  end.

(** [telepoolHub.GetNonce]; reading [account.Nonce] through a nil pointer
    would panic. *)
Definition GetNonce (state : State) (root addr : string) : exec uint64 :=
  match getAccountImpl state root addr with
  | (_, Some _) => Done 0%Z
  | (Some account, None) => Done (Nonce account)
  | (None, None) => Panic "invalid memory address or nil pointer dereference"
  end.

(** [telepoolHub.GetBalance] *)
Definition GetBalance (state : State) (root addr : string)
  : exec (option Z * option goerror) :=
  match getAccountImpl state root addr with
  | (_, Some err) =>
      if isStateNotFound err then Done (Some 0%Z, None)
      else Done (Some 0%Z, Some err)
  | (Some account, None) => Done (Balance account, None)
  | (None, None) => Panic "invalid memory address or nil pointer dereference"
  end.

End server.

(** ** Further sample inputs *)

(** An environment in which the client fails to start. *)
Definition failingStartEnv : Env :=
  {| self := "node"; updateChCap := 1;
     clientStartErr := Some "topic subscription failed";
     serviceCloseErr := None; connectedPeerStatuses := [] |}.

(** An environment whose poll of the connected peers answers with the
    status of peer [P]. *)
Definition pollingEnv : Env :=
  {| self := "node"; updateChCap := 1; clientStartErr := None;
     serviceCloseErr := None;
     connectedPeerStatuses := [Client.toAppPeer sampleStatus] |}.

(** A state whose snapshots hold no account. *)
Definition emptyState : server.State :=
  {| server.NewSnapshotAt := fun _ =>
       inl {| server.GetAccount := fun _ => (None, None) |} |}.

(** A state whose snapshots cannot be opened, for a reason that wraps the
    not-found sentinel. *)
Definition unreadableState : server.State :=
  {| server.NewSnapshotAt := fun _ =>
       inr (server.ErrWrap "trie root" server.ErrStateNotFound) |}.

(** The entry of every identifier is the status received last for it, and
    every identifier for which a status was received has an entry. *)
Definition lastWins (w : World) : Prop :=
  (forall k p, peerMap (sy w) !! k = Some p ->
     exists now q pre post,
       consumed w = pre ++ q :: post /\ ID q = k /\ p = seen now q /\
       forall q', q' ∈ post -> ID q' <> k) /\
  (forall q, q ∈ consumed w -> is_Some (peerMap (sy w) !! ID q)).

(** * Properties *)

(** C9. For every [Application] value [a], [a.Copy()] agrees with [a] on
    [Name], [Tag], [Version], [PeerID], [StartupTime], [Uptime],
    [GuageHeight], [GuageMax], [IpAddr] and [AppOrigin], and its hardware
    fields [ModelHash], [Mac], [MemInfo] and [CpuInfo] are the empty string
    whatever [a] holds there. *)
Theorem Copy_fields (a : Application) :
  (Name (Copy a) = Name a /\ Tag (Copy a) = Tag a /\
   Version (Copy a) = Version a /\ PeerID (Copy a) = PeerID a /\
   StartupTime (Copy a) = StartupTime a /\ Uptime (Copy a) = Uptime a /\
   GuageHeight (Copy a) = GuageHeight a /\ GuageMax (Copy a) = GuageMax a /\
   IpAddr (Copy a) = IpAddr a /\ AppOrigin (Copy a) = AppOrigin a) /\
  (ModelHash (Copy a) = "" /\ Mac (Copy a) = "" /\
   MemInfo (Copy a) = "" /\ CpuInfo (Copy a) = "").
Proof. repeat split. Qed.

(** ** Go channels *)

Lemma chanrecv_elems {A : Type} (c c' : GoChan.chan A) (x : A) :
  GoChan.chanrecv c = GoChan.Recv x c' ->
  x ∈ GoChan.buf c ++ GoChan.sendq c /\
  (forall y, y ∈ GoChan.buf c' ++ GoChan.sendq c' ->
             y ∈ GoChan.buf c ++ GoChan.sendq c) /\
  GoChan.closed c' = GoChan.closed c.
Proof.
  unfold GoChan.chanrecv. intros H.
  destruct (GoChan.buf c) as [|b bs]; destruct (GoChan.sendq c) as [|q qs];
    [destruct (GoChan.closed c); discriminate | | |];
    injection H as <- <-; simpl; set_solver.
Qed.

Lemma chansend_open {A : Type} (c : GoChan.chan A) (x : A) (block : bool) :
  GoChan.closed c = false ->
  exists c' sel,
    GoChan.chansend c x block = Done (c', sel) /\
    GoChan.closed c' = false /\
    GoChan.cap c' = GoChan.cap c /\
    (forall y, y ∈ GoChan.buf c' ++ GoChan.sendq c' ->
               y ∈ GoChan.buf c ++ GoChan.sendq c \/ y = x) /\
    (block = false -> GoChan.sendq c' = GoChan.sendq c) /\
    (block = false -> length (GoChan.buf c) <= GoChan.cap c ->
       length (GoChan.buf c') <= GoChan.cap c).
Proof.
  intros Hc. unfold GoChan.chansend. rewrite Hc.
  destruct (GoChan.recvq c) as [|n].
  - destruct (length (GoChan.buf c) <? GoChan.cap c)%nat eqn:Hlt.
    + eexists _, _. split; [reflexivity|]. simpl.
      repeat split; try done.
      * set_solver.
      * intros _ _. rewrite length_app. simpl.
        apply Nat.ltb_lt in Hlt. lia.
    + destruct block.
      * eexists _, _. split; [reflexivity|]. simpl.
        repeat split; try done. set_solver.
      * eexists _, _. split; [reflexivity|]. repeat split; auto.
  - eexists _, _. split; [reflexivity|]. simpl. repeat split; auto.
Qed.

Lemma chansend_closed {A : Type} (c : GoChan.chan A) (x : A) (block : bool) :
  GoChan.closed c = true ->
  GoChan.chansend c x block = Panic "send on closed channel".
Proof. intros Hc. unfold GoChan.chansend. by rewrite Hc. Qed.

Lemma close_done {A : Type} (c c' : GoChan.chan A) :
  GoChan.close c = Done c' -> GoChan.closed c' = true.
Proof.
  unfold GoChan.close. destruct (GoChan.closed c); [done|].
  destruct (GoChan.sendq c); [|done]. intros H. by inversion H.
Qed.

(** ** The syncer's own operations *)

Lemma notifyNewStatusEvent_open (s : syncer) :
  GoChan.closed (newStatusCh s) = false ->
  exists ch,
    notifyNewStatusEvent s = Done (withNewStatusCh ch s) /\
    GoChan.closed ch = false /\
    GoChan.cap ch = GoChan.cap (newStatusCh s) /\
    GoChan.sendq ch = GoChan.sendq (newStatusCh s) /\
    (length (GoChan.buf (newStatusCh s)) <= GoChan.cap (newStatusCh s) ->
     length (GoChan.buf ch) <= GoChan.cap (newStatusCh s)).
Proof.
  intros Hc. unfold notifyNewStatusEvent.
  destruct (chansend_open (newStatusCh s) tt false Hc)
    as (ch & sel & -> & Hcl & Hcap & _ & Hq & Hlen).
  exists ch. repeat split; auto.
Qed.

Lemma notifyNewStatusEvent_closed (s : syncer) :
  GoChan.closed (newStatusCh s) = true ->
  notifyNewStatusEvent s = Panic "send on closed channel".
Proof.
  intros Hc. unfold notifyNewStatusEvent. by rewrite chansend_closed.
Qed.

(** When the service closes without error, [Close] closes the signal
    channel, the service and the client, and with it the update channel. *)
Lemma Close_ok (env : Env) (s : syncer) :
  GoChan.closed (newStatusCh s) = false ->
  GoChan.sendq (newStatusCh s) = [] ->
  serviceCloseErr env = None ->
  exists s',
    Close env s = Done (s', None) /\
    GoChan.closed (newStatusCh s') = true /\
    svClosed (syncAppPeerService s') = true /\
    cClosed (syncAppPeerClient s') = true /\
    (forall ch, peerStatusUpdateCh (syncAppPeerClient s) = Some ch ->
       exists ch', peerStatusUpdateCh (syncAppPeerClient s') = Some ch' /\
                   GoChan.closed ch' = true).
Proof.
  intros Hc Hq He. unfold Close, GoChan.close, Service.Close.
  rewrite Hc, Hq, He. simpl. eexists. split; [reflexivity|]. simpl.
  repeat split. intros ch ->. eauto.
Qed.

(** ** Single steps of the node *)

(** What one round of the fan-in loop does to the peer map and to the list
    of consumed statuses: nothing, or one status taken from the update
    channel and put under its identifier. *)
Lemma fanInStep_peerMap (w : World) :
  (peerMap (sy (fanInStep w)) = peerMap (sy w) /\
   consumed (fanInStep w) = consumed w /\
   syncAppPeerClient (sy (fanInStep w)) = syncAppPeerClient (sy w)) \/
  (exists ch p ch',
     peerStatusUpdateCh (syncAppPeerClient (sy w)) = Some ch /\
     GoChan.chanrecv ch = GoChan.Recv p ch' /\
     peerMap (sy (fanInStep w)) = <[ID p := seen (clock w) p]> (peerMap (sy w)) /\
     consumed (fanInStep w) = consumed w ++ [p] /\
     syncAppPeerClient (sy (fanInStep w)) =
       Client.setUpdateCh ch' (syncAppPeerClient (sy w))).
Proof.
  unfold fanInStep, Client.GetPeerStatusUpdateCh.
  destruct (fanIn w); auto.
  destruct (peerStatusUpdateCh (syncAppPeerClient (sy w))) as [ch|] eqn:Hch;
    auto.
  destruct (GoChan.chanrecv ch) as [p ch'| |] eqn:Hrecv; auto.
  right. exists ch, p, ch'. split; [done|]. split; [done|].
  unfold putToPeerMap, notifyNewStatusEvent.
  destruct (GoChan.chansend _ _ _) as [[c b]|msg]; simpl; auto.
Qed.

Lemma step_peerMap (env : Env) (w : World) (ev : Event) :
  (peerMap (sy (step env w ev)) = peerMap (sy w) /\
   consumed (step env w ev) = consumed w) \/
  (exists ch p ch',
     peerStatusUpdateCh (syncAppPeerClient (sy w)) = Some ch /\
     GoChan.chanrecv ch = GoChan.Recv p ch' /\
     peerMap (sy (step env w ev)) = <[ID p := seen (clock w) p]> (peerMap (sy w)) /\
     consumed (step env w ev) = consumed w ++ [p]).
Proof.
  unfold step. destruct (crashed w); auto.
  destruct ev; simpl; auto.
  - destruct (fanInStep_peerMap w) as [(?&?&?)|(ch&p&ch'&?&?&?&?&?)]; auto.
    right. by exists ch, p, ch'.
  - unfold publisherBegin. destruct (publisher w), (ticker w); auto.
  - unfold publisherTick. destruct (publisher w), (ticker w); auto.
  - destruct (Close env (sy w)) as [[s e]|msg] eqn:HC; simpl; auto.
    unfold Close in HC.
    destruct (GoChan.close _); [|done]. simpl in HC.
    destruct (serviceCloseErr env); inversion HC; auto.
Qed.

(** The fan-in loop validates nothing on its own: it stores whatever the
    update channel delivers. The invariants on the peer map rest on the
    subscriber's filter. *)
Example fanIn_does_not_validate :
  exists p,
    GetAppPeer "P" (sy (fanInStep unfilteredNode)) = Some p /\
    (peerGuageHeight p > peerGuageMax p)%Z.
Proof. eexists. split; [vm_compute; reflexivity|]. reflexivity. Qed.

Lemma accept_wellFormed (env : Env) (m : appProto.AppStatus) (p : AppPeer) :
  Client.accept env m = Some p -> wellFormed env p.
Proof.
  unfold Client.accept, wellFormed.
  destruct (decide (appProto.NodeId m = "")); [done|].
  destruct (decide (appProto.NodeId m = self env)); [done|].
  destruct (appProto.GuageMax m <? appProto.GuageHeight m)%Z eqn:Hg; [done|].
  intros [= <-]. simpl. apply Z.ltb_ge in Hg. auto.
Qed.

Lemma subscriberStep_inFlight (env : Env) (c : SyncAppPeerClient) (p : AppPeer) :
  p ∈ inFlight (Client.subscriberStep env c) ->
  p ∈ inFlight c \/ exists m, Client.accept env m = Some p.
Proof.
  unfold Client.subscriberStep.
  destruct (cStarted c && cSubscribed c && negb (cClosed c)); auto.
  destruct (peerStatusUpdateCh c) as [ch|] eqn:Hch; auto.
  destruct (inbox c) as [|m rest]; auto.
  destruct (GoChan.sendq ch) as [|q qs] eqn:Hq; auto.
  destruct (Client.accept env m) as [a|] eqn:Ha.
  - destruct (GoChan.chansend ch a true) as [[ch' sel]|msg] eqn:Hs; auto.
    unfold inFlight at 1. simpl. intros Hin.
    unfold GoChan.chansend in Hs.
    destruct (GoChan.closed ch); [done|].
    unfold inFlight. rewrite Hch.
    destruct (GoChan.recvq ch);
      [destruct (length (GoChan.buf ch) <? GoChan.cap ch)%nat|];
      injection Hs as <- <-; simpl in Hin; rewrite ?Hq in *.
    + apply elem_of_app in Hin as [Hin|Hin]; [|set_solver].
      apply elem_of_app in Hin as [Hin|Hin]; [set_solver|].
      apply list_elem_of_singleton in Hin as ->. eauto.
    + rewrite app_nil_l in Hin.
      apply elem_of_app in Hin as [Hin|Hin]; [set_solver|].
      apply list_elem_of_singleton in Hin as ->. eauto.
    + set_solver.
  - unfold inFlight. simpl. rewrite Hch. auto.
Qed.

Lemma step_inFlight (env : Env) (w : World) (ev : Event) (p : AppPeer) :
  p ∈ inFlight (syncAppPeerClient (sy (step env w ev))) ->
  p ∈ inFlight (syncAppPeerClient (sy w)) \/
  exists m, Client.accept env m = Some p.
Proof.
  unfold step. destruct (crashed w); auto.
  destruct ev; simpl; auto.
  - unfold Client.deliver.
    destruct (cStarted _ && cSubscribed _ && negb (cClosed _)); auto.
  - apply subscriberStep_inFlight.
  - destruct (fanInStep_peerMap w) as [(_&_&->)|(ch&q&ch'&Hch&Hr&_&_&->)];
      auto.
    unfold inFlight. simpl. rewrite Hch. intros Hin. left.
    by apply (chanrecv_elems _ _ _ Hr).
  - unfold publisherBegin. destruct (publisher w), (ticker w); auto.
  - unfold publisherTick. destruct (publisher w), (ticker w); auto.
  - unfold Close.
    destruct (GoChan.close _); simpl; auto.
    destruct (serviceCloseErr env); simpl; auto.
    unfold inFlight. simpl.
    destruct (peerStatusUpdateCh _) as [ch|]; simpl; auto.
    rewrite app_nil_r. set_solver.
Qed.

Lemma step_polls (env : Env) (w : World) (ev : Event) :
  polls (syncAppPeerClient (sy (step env w ev))) =
  polls (syncAppPeerClient (sy w)).
Proof.
  unfold step. destruct (crashed w); auto.
  destruct ev; simpl; auto.
  - unfold Client.deliver.
    destruct (cStarted _ && cSubscribed _ && negb (cClosed _)); auto.
  - unfold Client.subscriberStep.
    repeat (case_match; simpl; auto).
  - destruct (fanInStep_peerMap w) as [(_&_&->)|(ch&q&ch'&_&_&_&_&->)]; auto.
  - unfold publisherBegin. destruct (publisher w), (ticker w); auto.
  - unfold publisherTick. destruct (publisher w), (ticker w); auto.
  - unfold Close.
    destruct (GoChan.close _); simpl; auto.
    destruct (serviceCloseErr env); simpl; auto.
Qed.

(** ** Invariants of a run *)

Lemma started_fresh (env : Env) (flag : bool) (h : list string)
  (store : EndpointApplication) :
  peerMap (sy (started env flag h store)) = ∅ /\
  consumed (started env flag h store) = [] /\
  inFlight (syncAppPeerClient (sy (started env flag h store))) = [] /\
  polls (syncAppPeerClient (sy (started env flag h store))) = 0 /\
  published (syncAppPeerClient (sy (started env flag h store))) = [] /\
  ticker (started env flag h store) = None /\
  crashed (started env flag h store) = None /\
  GoChan.closed (newStatusCh (sy (started env flag h store))) = false.
Proof.
  unfold started, Start, boot, Client.Start. simpl.
  destruct (clientStartErr env); simpl; repeat split.
Qed.

Lemma started_filtered (env : Env) (flag : bool) (h : list string)
  (store : EndpointApplication) :
  filtered env (started env flag h store).
Proof.
  destruct (started_fresh env flag h store) as (Hm & Hc & Hf & _).
  unfold filtered. rewrite Hm, Hc, Hf.
  split; [intros k p; by rewrite lookup_empty|]. split; set_solver.
Qed.

Lemma step_filtered (env : Env) (w : World) (ev : Event) :
  filtered env w -> filtered env (step env w ev).
Proof.
  intros (Hmap & Hfl & Hco). unfold filtered.
  assert (Hfl' : forall p,
             p ∈ inFlight (syncAppPeerClient (sy (step env w ev))) ->
             wellFormed env p).
  { intros p Hin. apply step_inFlight in Hin as [Hin|[m Hm]]; auto.
    by apply accept_wellFormed with m. }
  destruct (step_peerMap env w ev) as [[-> ->]|(ch&q&ch'&Hch&Hr&->&->)];
    [by auto|].
  assert (Hq : wellFormed env q).
  { apply Hfl. unfold inFlight. rewrite Hch.
    by destruct (chanrecv_elems _ _ _ Hr) as [Hin _]. }
  split; [|split; [done|]].
  - intros k p. rewrite lookup_insert. case_decide as Hk.
    + intros [= <-]. by subst k.
    + apply Hmap.
  - intros p [Hin|Hin]%elem_of_app; [by auto|].
    by apply list_elem_of_singleton in Hin as ->.
Qed.

Lemma run_filtered (env : Env) (evs : list Event) (w : World) :
  filtered env w -> filtered env (run env w evs).
Proof.
  unfold run. revert w.
  induction evs as [|ev evs IH]; intros w Hw; simpl; [done|].
  by apply IH, step_filtered.
Qed.

Lemma started_fromChannel (env : Env) (flag : bool) (h : list string)
  (store : EndpointApplication) :
  fromChannel (started env flag h store).
Proof.
  destruct (started_fresh env flag h store) as (Hm & _ & _ & Hp & _).
  unfold fromChannel. rewrite Hm, Hp. split; [done|].
  intros k p. by rewrite lookup_empty.
Qed.

Lemma step_fromChannel (env : Env) (w : World) (ev : Event) :
  fromChannel w -> fromChannel (step env w ev).
Proof.
  intros [Hp Hmap]. unfold fromChannel. rewrite step_polls.
  split; [done|].
  destruct (step_peerMap env w ev) as [[-> ->]|(ch&q&ch'&_&_&->&->)];
    [done|].
  intros k p. rewrite lookup_insert. case_decide as Hk.
  - intros [= <-]. exists q, (clock w). set_solver.
  - intros (q' & now & Hin & ? & ?)%Hmap. exists q', now. set_solver.
Qed.

Lemma run_fromChannel (env : Env) (evs : list Event) (w : World) :
  fromChannel w -> fromChannel (run env w evs).
Proof.
  unfold run. revert w.
  induction evs as [|ev evs IH]; intros w Hw; simpl; [done|].
  by apply IH, step_fromChannel.
Qed.

(** An entry of the peer map is never removed: no event reaches
    [removeFromPeerMap]. *)
Lemma step_keeps_entry (env : Env) (w : World) (ev : Event) (k : string) :
  is_Some (peerMap (sy w) !! k) ->
  is_Some (peerMap (sy (step env w ev)) !! k).
Proof.
  intros Hk.
  destruct (step_peerMap env w ev) as [[-> _]|(ch&q&ch'&_&_&->&_)]; [done|].
  rewrite lookup_insert. by case_decide.
Qed.

Lemma run_keeps_entry (env : Env) (evs : list Event) (w : World) (k : string) :
  is_Some (peerMap (sy w) !! k) ->
  is_Some (peerMap (sy (run env w evs)) !! k).
Proof.
  unfold run. revert w.
  induction evs as [|ev evs IH]; intros w Hw; simpl; [done|].
  by apply IH, step_keeps_entry.
Qed.

(** ** The publisher goroutine *)

Lemma Start_ok (env : Env) (flag : bool) (h : list string)
  (store : EndpointApplication) (w : World) :
  Start env flag (boot h store) = (w, None) ->
  w = started env flag h store /\
  publisher w = Running /\ fanIn w = Running /\
  clientStartErr env = None.
Proof.
  unfold started. intros HS. rewrite HS. split; [done|].
  revert HS. unfold Start, boot, Client.Start. simpl.
  destruct (clientStartErr env); simpl; [done|].
  intros [= <-]. auto.
Qed.

Lemma step_publisher (env : Env) (w : World) (ev : Event) :
  publisher (step env w ev) = publisher w.
Proof.
  unfold step. destruct (crashed w); auto.
  destruct ev; simpl; auto.
  - unfold fanInStep.
    repeat (case_match; simpl; auto).
  - unfold publisherBegin.
    destruct (publisher w) eqn:Hp, (ticker w); simpl; auto.
  - unfold publisherTick.
    destruct (publisher w) eqn:Hp, (ticker w); simpl; auto.
  - destruct (Close env (sy w)) as [[s e]|msg]; auto.
Qed.

Lemma run_publisher (env : Env) (evs : list Event) (w : World) :
  publisher (run env w evs) = publisher w.
Proof.
  unfold run. revert w.
  induction evs as [|ev evs IH]; intros w; simpl; [done|].
  by rewrite IH, step_publisher.
Qed.

(** While [Close] is not called the signal channel stays open and nothing
    panics. *)
Lemma step_open (env : Env) (w : World) (ev : Event) :
  ev <> EvClose ->
  crashed w = None ->
  GoChan.closed (newStatusCh (sy w)) = false ->
  crashed (step env w ev) = None /\
  GoChan.closed (newStatusCh (sy (step env w ev))) = false.
Proof.
  intros Hev Hc Ho. unfold step. rewrite Hc.
  destruct ev; simpl; auto; try done.
  - unfold fanInStep. destruct (fanIn w); auto.
    destruct (Client.GetPeerStatusUpdateCh _) as [ch|]; auto.
    destruct (GoChan.chanrecv ch) as [p ch'| |]; auto.
    unfold putToPeerMap.
    match goal with |- context [notifyNewStatusEvent ?s] =>
      destruct (notifyNewStatusEvent_open s Ho) as (c & -> & Hcl & _)
    end.
    simpl. auto.
  - unfold publisherBegin. destruct (publisher w), (ticker w); auto.
  - unfold publisherTick. destruct (publisher w), (ticker w); auto.
  - split; [done|]. unfold GoChan.park_receiver.
    destruct (GoChan.chanrecv _) as [p c'| |] eqn:Hr; simpl; auto.
    destruct (chanrecv_elems _ _ _ Hr) as (_ & _ & ->). done.
Qed.

(** The effect of one event on the log of published statuses and on the
    ticker. *)
Lemma step_published (env : Env) (w : World) (ev : Event) :
  crashed w = None ->
  publisher w = Running ->
  length (published (syncAppPeerClient (sy (step env w ev)))) =
    length (published (syncAppPeerClient (sy w))) +
    match ev, ticker w with
    | EvPublisher, None => 1
    | EvTick, Some _ => 1
    | _, _ => 0
    end /\
  ticker (step env w ev) =
    match ev, ticker w with
    | EvPublisher, None => Some DefaultAppStatusPublishDuration
    | _, _ => ticker w
    end.
Proof.
  intros Hc Hp. unfold step. rewrite Hc.
  destruct ev; simpl; rewrite ?Nat.add_0_r; auto.
  - unfold Client.deliver.
    destruct (cStarted _ && cSubscribed _ && negb (cClosed _)); auto.
  - unfold Client.subscriberStep.
    repeat (case_match; simpl; auto).
  - destruct (fanInStep_peerMap w) as [(_&_&->)|(ch&q&ch'&_&_&_&_&->)];
      (split; [done|]).
    all: unfold fanInStep; repeat (case_match; simpl; auto).
  - unfold publisherBegin. rewrite Hp.
    destruct (ticker w) eqn:Ht; simpl; rewrite ?length_app; simpl;
      split; (lia || done).
  - unfold publisherTick. rewrite Hp.
    destruct (ticker w) eqn:Ht; simpl; rewrite ?length_app; simpl;
      split; (lia || done).
  - unfold Close.
    destruct (GoChan.close _); simpl; auto.
    destruct (serviceCloseErr env); simpl; auto.
Qed.

Lemma run_published_ticking (env : Env) (evs : list Event) (w : World)
  (d : Duration) :
  EvClose ∉ evs ->
  crashed w = None ->
  GoChan.closed (newStatusCh (sy w)) = false ->
  publisher w = Running ->
  ticker w = Some d ->
  length (published (syncAppPeerClient (sy (run env w evs)))) =
    length (published (syncAppPeerClient (sy w))) + ticks evs /\
  ticker (run env w evs) = Some d.
Proof.
  unfold run. revert w.
  induction evs as [|ev evs IH]; intros w Hev Hc Ho Hp Ht; simpl.
  { by rewrite Nat.add_0_r. }
  apply not_elem_of_cons in Hev as [Hne Hev].
  destruct (step_open env w ev) as [Hc' Ho']; auto.
  destruct (step_published env w ev Hc Hp) as [Hlen Htk].
  rewrite Ht in Hlen, Htk.
  destruct (IH (step env w ev)) as [-> ->]; auto.
  { by rewrite step_publisher. }
  { rewrite Htk. by destruct ev. }
  split; [|done]. rewrite Hlen. destruct ev; simpl; lia.
Qed.

Lemma run_published (env : Env) (evs : list Event) (w : World) :
  EvClose ∉ evs ->
  crashed w = None ->
  GoChan.closed (newStatusCh (sy w)) = false ->
  publisher w = Running ->
  ticker w = None ->
  length (published (syncAppPeerClient (sy (run env w evs)))) =
    length (published (syncAppPeerClient (sy w))) + fires evs /\
  (ticker (run env w evs) =
     if decide (fires evs = 0) then None
     else Some DefaultAppStatusPublishDuration).
Proof.
  revert w.
  induction evs as [|ev evs IH]; intros w Hev Hc Ho Hp Ht.
  { simpl. by rewrite Nat.add_0_r. }
  apply not_elem_of_cons in Hev as [Hne Hev].
  destruct (step_open env w ev) as [Hc' Ho']; auto.
  destruct (step_published env w ev Hc Hp) as [Hlen Htk].
  rewrite Ht in Hlen, Htk.
  assert (Hp' : publisher (step env w ev) = Running)
    by (by rewrite step_publisher).
  change (run env w (ev :: evs)) with (run env (step env w ev) evs).
  assert (Hcase : ev = EvPublisher \/ ev <> EvPublisher)
    by (destruct ev; try (right; discriminate); by left).
  destruct Hcase as [->|Hnp].
  - destruct (run_published_ticking env evs (step env w EvPublisher)
                DefaultAppStatusPublishDuration) as [-> ->]; auto.
    simpl. split; [lia|done].
  - destruct (IH (step env w ev)) as [-> ->]; auto.
    { rewrite Htk. by destruct ev. }
    rewrite Hlen. destruct ev; simpl; try done; split; try lia; done.
Qed.

(** ** The signal channel *)

(** The signal channel is unbuffered and only ever sent to without
    blocking, so no signal is ever pending on it: a pulse is handed to an
    observer that is already waiting, or it is dropped. *)
Lemma step_signal (env : Env) (w : World) (ev : Event) :
  GoChan.cap (newStatusCh (sy w)) = 0 /\
  GoChan.buf (newStatusCh (sy w)) = [] /\
  GoChan.sendq (newStatusCh (sy w)) = [] ->
  GoChan.cap (newStatusCh (sy (step env w ev))) = 0 /\
  GoChan.buf (newStatusCh (sy (step env w ev))) = [] /\
  GoChan.sendq (newStatusCh (sy (step env w ev))) = [].
Proof.
  intros (Hcap & Hbuf & Hq). unfold step. destruct (crashed w); auto.
  destruct ev; simpl; auto.
  - unfold fanInStep. destruct (fanIn w); auto.
    destruct (Client.GetPeerStatusUpdateCh _) as [ch|]; auto.
    destruct (GoChan.chanrecv ch) as [p ch'| |]; auto.
    unfold putToPeerMap, notifyNewStatusEvent, GoChan.chansend. simpl.
    rewrite Hcap, Hbuf. simpl.
    destruct (GoChan.closed _); simpl; auto.
    destruct (GoChan.recvq _); simpl; auto.
  - unfold publisherBegin. destruct (publisher w), (ticker w); auto.
  - unfold publisherTick. destruct (publisher w), (ticker w); auto.
  - unfold GoChan.park_receiver, GoChan.chanrecv. rewrite Hbuf, Hq.
    destruct (GoChan.closed _); simpl; auto.
  - unfold Close, GoChan.close. rewrite Hq.
    destruct (GoChan.closed _); simpl; auto.
    destruct (serviceCloseErr env); simpl; auto.
Qed.

Lemma run_signal (env : Env) (flag : bool) (h : list string)
  (store : EndpointApplication) (evs : list Event) :
  GoChan.buf (newStatusCh (sy (run env (started env flag h store) evs))) = [].
Proof.
  assert (H0 : GoChan.cap (newStatusCh (sy (started env flag h store))) = 0 /\
               GoChan.buf (newStatusCh (sy (started env flag h store))) = [] /\
               GoChan.sendq (newStatusCh (sy (started env flag h store))) = []).
  { unfold started, Start, boot, Client.Start. simpl.
    destruct (clientStartErr env); simpl; auto. }
  unfold run. revert H0. generalize (started env flag h store).
  induction evs as [|ev evs IH]; intros w Hw; simpl; [apply Hw|].
  by apply IH, step_signal.
Qed.

(** A status that is still on its way when [Close] is called reaches the
    fan-in loop afterwards; the pulse on the closed signal channel then
    panics and takes the process down. *)
Example fanIn_panics_after_Close :
  crashed (run sampleEnv (started sampleEnv true [] sampleEndpoint)
             [EvOverlayMsg sampleStatus; EvSubscriber; EvClose; EvFanIn])
  = Some "send on closed channel".
Proof. vm_compute. reflexivity. Qed.

(** * Main results *)

(** C1. The specification wants the publisher goroutine to have exited once
    [Close] was invoked. It has not: for every run of a node whose [Start]
    succeeded, with [Close] called anywhere in it, the goroutine is still
    running afterwards, and while the process is alive and its ticker
    exists the next tick publishes once more. *)
Theorem publisher_outlives_Close (env : Env) (flag : bool) (h : list string)
  (store : EndpointApplication) (w : World) (evs1 evs2 : list Event) :
  Start env flag (boot h store) = (w, None) ->
  let w' := run env w (evs1 ++ EvClose :: evs2) in
  publisher w' = Running /\
  (crashed w' = None -> ticker w' <> None ->
   length (published (syncAppPeerClient (sy (step env w' EvTick)))) =
   S (length (published (syncAppPeerClient (sy w'))))).
Proof.
  intros (-> & Hp & _)%Start_ok. simpl.
  assert (Hrun : publisher
            (run env (started env flag h store) (evs1 ++ EvClose :: evs2))
          = Running) by (by rewrite run_publisher).
  split; [done|]. intros Hc Ht.
  destruct (step_published env _ EvTick Hc Hrun) as [-> _].
  destruct (ticker _); [lia|done].
Qed.

Lemma publisher_outlives_Close_witness :
  Start sampleEnv true (boot [] sampleEndpoint)
    = (started sampleEnv true [] sampleEndpoint, None) /\
  let w' := run sampleEnv (started sampleEnv true [] sampleEndpoint)
              ([EvPublisher] ++ EvClose :: [EvFanIn]) in
  publisher w' = Running /\
  (crashed w' = None -> ticker w' <> None ->
   length (published (syncAppPeerClient (sy (step sampleEnv w' EvTick)))) =
   S (length (published (syncAppPeerClient (sy w'))))).
Proof.
  split; [reflexivity|].
  apply (publisher_outlives_Close sampleEnv true [] sampleEndpoint).
  reflexivity.
Defined.

(** C2. [removeFromPeerMap(P)] removes the entry of [P], so that a later
    [GetAppPeer(P)] finds nothing; but [Start] spawns no connection event
    process, so a [disconnected(P)] event leaves the peer map as it is, and
    a peer that has an entry keeps one under every later event. *)
Theorem disconnect_does_not_evict (env : Env) (w : World) (P : peer_ID)
  (evs : list Event) :
  is_Some (GetAppPeer (peer_String P) (sy w)) ->
  GetAppPeer (peer_String P) (removeFromPeerMap P (sy w)) = None /\
  peerMap (sy (step env w (EvDisconnected P))) = peerMap (sy w) /\
  is_Some (GetAppPeer (peer_String P) (sy (run env w evs))).
Proof.
  intros HP. split; [|split].
  - unfold GetAppPeer, removeFromPeerMap, PeerMap.Get, PeerMap.Remove.
    simpl. apply lookup_delete_eq.
  - unfold step. by destruct (crashed w).
  - by apply run_keeps_entry.
Qed.

Lemma disconnect_does_not_evict_witness :
  is_Some (GetAppPeer (peer_String "P") (sy nodeWithP)) /\
  GetAppPeer (peer_String "P") (removeFromPeerMap "P" (sy nodeWithP)) = None /\
  peerMap (sy (step sampleEnv nodeWithP (EvDisconnected "P")))
    = peerMap (sy nodeWithP) /\
  is_Some (GetAppPeer (peer_String "P")
             (sy (run sampleEnv nodeWithP [EvDisconnected "P"; EvFanIn]))).
Proof.
  assert (HP : is_Some (GetAppPeer (peer_String "P") (sy nodeWithP)))
    by (vm_compute; eauto).
  split; [exact HP|].
  exact (disconnect_does_not_evict sampleEnv nodeWithP "P"
           [EvDisconnected "P"; EvFanIn] HP).
Defined.

(** C2, as stated, fails: peer [P] has an entry, the overlay emits
    [disconnected(P)] after [Start] has returned, and [GetAppPeer(P)] still
    finds the entry. *)
Lemma disconnected_entry_stays :
  is_Some (GetAppPeer "P" (sy nodeWithP)) /\
  GetAppPeer "P" (sy (step sampleEnv nodeWithP (EvDisconnected "P"))) <> None.
Proof. vm_compute. split; [eauto|discriminate]. Qed.

(** C3. Each call of [doPublishAppStatus] publishes exactly one status. Its
    name, node id, uptime, startup time, origin, MAC, CPU, GPU and memory
    information, model hash, average power and version are those of the
    endpoint application at that moment, its address is the first listening
    address of the host or the empty string when there is none; its relay is
    always the empty string and its gauge height and gauge maximum are
    always zero, whatever the endpoint's gauge is. *)
Theorem doPublishAppStatus_fields (s : syncer) :
  exists m : appProto.AppStatus,
    published (syncAppPeerClient (doPublishAppStatus s))
      = published (syncAppPeerClient s) ++ [m] /\
    appProto.Name m = Name (app (applicationStore s)) /\
    appProto.NodeId m = peer_String (PeerID (app (applicationStore s))) /\
    appProto.Uptime m = Uptime (app (applicationStore s)) /\
    appProto.StartupTime m = StartupTime (app (applicationStore s)) /\
    appProto.AppOrigin m = AppOrigin (app (applicationStore s)) /\
    appProto.Mac m = Mac (app (applicationStore s)) /\
    appProto.CpuInfo m = CpuInfo (app (applicationStore s)) /\
    appProto.GpuInfo m = GpuInfo (applicationStore s) /\
    appProto.MemInfo m = MemInfo (app (applicationStore s)) /\
    appProto.ModelHash m = ModelHash (app (applicationStore s)) /\
    appProto.AveragePower m = AveragePower (applicationStore s) /\
    appProto.Version m = Version (app (applicationStore s)) /\
    appProto.Addr m = default "" (head (host s)) /\
    appProto.Relay m = "" /\
    appProto.GuageHeight m = 0%Z /\
    appProto.GuageMax m = 0%Z.
Proof.
  unfold doPublishAppStatus. simpl. eexists. split; [reflexivity|]. simpl.
  repeat split. by destruct (host s).
Qed.

(** C3, as stated, fails: the endpoint's gauge is 1 of 4 and the status
    published for it carries a gauge height and a gauge maximum that
    differ from the endpoint's. *)
Lemma published_gauge_differs :
  exists m : appProto.AppStatus,
    published (syncAppPeerClient (doPublishAppStatus sampleSyncer)) = [m] /\
    appProto.GuageHeight m <> GuageHeight (app (applicationStore sampleSyncer)) /\
    appProto.GuageMax m <> GuageMax (app (applicationStore sampleSyncer)).
Proof. eexists. split; [reflexivity|]. split; discriminate. Qed.

(** C4. The specification wants an error of the service's close not to keep
    the client from being closed. In [Close] it does: when the service's
    close returns an error, [Close] returns that error at once, with the
    signal channel and the service closed and the client untouched, so
    that the update channel stays open. *)
Theorem Close_service_error_skips_client (env : Env) (s : syncer) (e : error) :
  GoChan.closed (newStatusCh s) = false ->
  GoChan.sendq (newStatusCh s) = [] ->
  serviceCloseErr env = Some e ->
  exists s',
    Close env s = Done (s', Some e) /\
    GoChan.closed (newStatusCh s') = true /\
    svClosed (syncAppPeerService s') = true /\
    syncAppPeerClient s' = syncAppPeerClient s.
Proof.
  intros Hc Hq He. unfold Close, GoChan.close, Service.Close.
  rewrite Hc, Hq, He. simpl. eexists. split; [reflexivity|]. by simpl.
Qed.

Lemma Close_service_error_skips_client_witness :
  exists s',
    Close failingCloseEnv (sy (started failingCloseEnv true [] sampleEndpoint))
      = Done (s', Some "stream cancel failed") /\
    GoChan.closed (newStatusCh s') = true /\
    svClosed (syncAppPeerService s') = true /\
    syncAppPeerClient s'
      = syncAppPeerClient (sy (started failingCloseEnv true [] sampleEndpoint)).
Proof.
  apply (Close_service_error_skips_client failingCloseEnv
           (sy (started failingCloseEnv true [] sampleEndpoint))
           "stream cancel failed"); reflexivity.
Defined.

(** C5. The specification wants [notifyNewStatusEvent] to return normally in
    every state of the signal channel, also after [Close] has closed it.
    On the syncer that [Close] leaves behind it panics, and so does
    [putToPeerMap], after it has stored the status. *)
Theorem notifyNewStatusEvent_after_Close (env : Env) (s s' : syncer)
  (err : option error) (now : Z) (status : AppPeer) :
  Close env s = Done (s', err) ->
  notifyNewStatusEvent s' = Panic "send on closed channel" /\
  putToPeerMap now status s' = Panic "send on closed channel".
Proof.
  unfold Close. destruct (GoChan.close (newStatusCh s)) as [ch|] eqn:Hcl;
    [|done].
  apply close_done in Hcl. simpl.
  intros HC.
  assert (Hs' : GoChan.closed (newStatusCh s') = true)
    by (destruct (serviceCloseErr env); injection HC as <- _; exact Hcl).
  split; [by apply notifyNewStatusEvent_closed|].
  unfold putToPeerMap. by apply notifyNewStatusEvent_closed.
Qed.

Lemma notifyNewStatusEvent_after_Close_witness :
  Close sampleEnv sampleSyncer
    = Done (withClient (Client.Close Client.New)
              (withService {| svStarted := false; svClosed := true |}
                 (withNewStatusCh
                    {| GoChan.cap := 0; GoChan.buf := []; GoChan.sendq := [];
                       GoChan.recvq := 0; GoChan.closed := true |}
                    sampleSyncer)), None) /\
  notifyNewStatusEvent
    (withClient (Client.Close Client.New)
       (withService {| svStarted := false; svClosed := true |}
          (withNewStatusCh
             {| GoChan.cap := 0; GoChan.buf := []; GoChan.sendq := [];
                GoChan.recvq := 0; GoChan.closed := true |}
             sampleSyncer)))
    = Panic "send on closed channel" /\
  putToPeerMap 0 (Client.toAppPeer sampleStatus)
    (withClient (Client.Close Client.New)
       (withService {| svStarted := false; svClosed := true |}
          (withNewStatusCh
             {| GoChan.cap := 0; GoChan.buf := []; GoChan.sendq := [];
                GoChan.recvq := 0; GoChan.closed := true |}
             sampleSyncer)))
    = Panic "send on closed channel".
Proof.
  split; [reflexivity|].
  apply (notifyNewStatusEvent_after_Close sampleEnv sampleSyncer _ None).
  reflexivity.
Defined.

(** C6. A status message whose peer identifier is this node's own, or is
    empty, is discarded by the subscriber, and in every run of a node from
    its start the peer map has no entry for this node's identifier or for
    the empty identifier, and no status with such an identifier was ever
    received by the fan-in loop, which is the only caller of
    [putToPeerMap]. *)
Theorem self_status_never_stored (env : Env) (flag : bool) (h : list string)
  (store : EndpointApplication) (evs : list Event) :
  let w := run env (started env flag h store) evs in
  (forall m : appProto.AppStatus,
     appProto.NodeId m = self env \/ appProto.NodeId m = "" ->
     Client.accept env m = None) /\
  GetAppPeer (peer_String (self env)) (sy w) = None /\
  GetAppPeer "" (sy w) = None /\
  (forall p, p ∈ consumed w -> ID p <> self env /\ ID p <> "").
Proof.
  simpl.
  destruct (run_filtered env evs _ (started_filtered env flag h store))
    as (Hmap & _ & Hco).
  split; [|split; [|split]].
  - intros m [Hm|Hm]; unfold Client.accept; rewrite Hm;
      repeat case_decide; done.
  - unfold GetAppPeer, PeerMap.Get, peer_String.
    apply eq_None_not_Some. intros [p Hp].
    apply Hmap in Hp as (Hid & _ & Hne & _). done.
  - unfold GetAppPeer, PeerMap.Get.
    apply eq_None_not_Some. intros [p Hp].
    apply Hmap in Hp as (Hid & Hne & _). done.
  - intros p (Hne & Hns & _)%Hco. done.
Qed.

(** C7. A status message with [gauge_height > gauge_max] is discarded by
    the subscriber, which then goes on with the next message; and in every
    run of a node from its start every entry of the peer map, and every
    status the fan-in loop has passed to [putToPeerMap], has
    [gauge_height <= gauge_max]. *)
Theorem gauge_invariant_holds (env : Env) (flag : bool) (h : list string)
  (store : EndpointApplication) (evs : list Event) :
  let w := run env (started env flag h store) evs in
  (forall m : appProto.AppStatus,
     (appProto.GuageHeight m > appProto.GuageMax m)%Z ->
     Client.accept env m = None) /\
  (forall (c : SyncAppPeerClient) ch m rest,
     cStarted c = true -> cSubscribed c = true -> cClosed c = false ->
     peerStatusUpdateCh c = Some ch -> GoChan.sendq ch = [] ->
     inbox c = m :: rest ->
     (appProto.GuageHeight m > appProto.GuageMax m)%Z ->
     Client.subscriberStep env c = Client.setInbox rest c) /\
  (forall k p, peerMap (sy w) !! k = Some p ->
               (peerGuageHeight p <= peerGuageMax p)%Z) /\
  (forall p, p ∈ consumed w -> (peerGuageHeight p <= peerGuageMax p)%Z).
Proof.
  simpl.
  destruct (run_filtered env evs _ (started_filtered env flag h store))
    as (Hmap & _ & Hco).
  assert (Hacc : forall m : appProto.AppStatus,
             (appProto.GuageHeight m > appProto.GuageMax m)%Z ->
             Client.accept env m = None).
  { intros m Hm. unfold Client.accept.
    repeat case_decide; try done.
    destruct (appProto.GuageMax m <? appProto.GuageHeight m)%Z eqn:Hg;
      [done|].
    apply Z.ltb_ge in Hg. lia. }
  split; [exact Hacc|]. split; [|split].
  - intros c ch m rest Hs Hsub Hcl Hch Hq Hin Hm.
    unfold Client.subscriberStep.
    rewrite Hs, Hsub, Hcl, Hch, Hin, Hq. simpl. by rewrite Hacc.
  - intros k p (_ & _ & _ & Hg)%Hmap. done.
  - intros p (_ & _ & Hg)%Hco. done.
Qed.

(** C8. After a successful [Start] and as long as [Close] is not called,
    the publisher publishes once when its goroutine first runs and once
    for every tick of its ticker after that, and at no other event; the
    ticker's period is [DefaultAppStatusPublishDuration], which is 15
    minutes. *)
Theorem publish_cadence (env : Env) (flag : bool) (h : list string)
  (store : EndpointApplication) (w : World) (evs : list Event) :
  Start env flag (boot h store) = (w, None) ->
  EvClose ∉ evs ->
  length (published (syncAppPeerClient (sy (run env w evs)))) = fires evs /\
  ticker (run env w evs) =
    (if decide (fires evs = 0) then None else Some (15 * Minute)%Z) /\
  DefaultAppStatusPublishDuration = (15 * Minute)%Z.
Proof.
  intros (-> & Hp & _)%Start_ok Hev.
  destruct (started_fresh env flag h store)
    as (_ & _ & _ & _ & Hpub & Htk & Hcr & Hop).
  destruct (run_published env evs _ Hev Hcr Hop Hp Htk) as [Hlen Ht].
  rewrite Hpub in Hlen. simpl in Hlen.
  split; [done|]. split; [|reflexivity].
  rewrite Ht. reflexivity.
Qed.

Lemma publish_cadence_witness :
  Start sampleEnv true (boot [] sampleEndpoint)
    = (started sampleEnv true [] sampleEndpoint, None) /\
  (EvClose ∉ sampleTrace) /\
  length (published (syncAppPeerClient (sy
    (run sampleEnv (started sampleEnv true [] sampleEndpoint) sampleTrace))))
    = 3 /\
  ticker (run sampleEnv (started sampleEnv true [] sampleEndpoint) sampleTrace)
    = Some (15 * Minute)%Z /\
  DefaultAppStatusPublishDuration = (15 * Minute)%Z.
Proof.
  assert (Hev : EvClose ∉ sampleTrace).
  { unfold sampleTrace. rewrite !not_elem_of_cons.
    repeat split; try discriminate. apply not_elem_of_nil. }
  split; [reflexivity|]. split; [exact Hev|].
  exact (publish_cadence sampleEnv true [] sampleEndpoint _ _ eq_refl Hev).
Defined.

(** C10. [Start] does not seed the peer map from
    [GetConnectedPeerStatuses]: whatever a poll would answer, the peer map
    is empty right after [Start], and in every run from there the
    connected peers are never polled, which [initializePeerMap] would do,
    and every entry of the peer map is a status that the fan-in loop
    received from the update channel, stored under its identifier. *)
Theorem peerMap_fed_by_fanIn_only (env : Env) (flag : bool) (h : list string)
  (store : EndpointApplication) (evs : list Event) :
  let w := run env (started env flag h store) evs in
  peerMap (sy (started env flag h store)) = ∅ /\
  (forall now s,
     polls (syncAppPeerClient (initializePeerMap env now s))
       = S (polls (syncAppPeerClient s))) /\
  polls (syncAppPeerClient (sy w)) = 0 /\
  (forall k p, peerMap (sy w) !! k = Some p ->
     exists q now, q ∈ consumed w /\ k = ID q /\ p = seen now q).
Proof.
  simpl.
  destruct (run_fromChannel env evs _ (started_fromChannel env flag h store))
    as [Hp Hmap].
  split; [apply started_fresh|]. split; [done|]. split; done.
Qed.

(** * Further properties *)

(** ** Phases of a run *)

Lemma run_app (env : Env) (w : World) (evs1 evs2 : list Event) :
  run env w (evs1 ++ evs2) = run env (run env w evs1) evs2.
Proof. unfold run. apply foldl_app. Qed.

Lemma started_running (env : Env) (flag : bool) (h : list string)
  (store : EndpointApplication) (w : World) :
  Start env flag (boot h store) = (w, None) -> running w.
Proof.
  unfold Start, boot, Client.Start. simpl.
  destruct (clientStartErr env); simpl; [done|].
  intros [= <-]. unfold running. simpl. repeat split; eauto.
Qed.

Lemma step_running (env : Env) (w : World) (ev : Event) :
  ev <> EvClose -> running w -> running (step env w ev).
Proof.
  intros Hev (Hcr & Hop & Hq & Hf & Hcc & ch & Hch & Hcl).
  unfold running, step. rewrite Hcr.
  destruct ev; simpl; try done; try (repeat split; eauto; fail).
  - unfold Client.deliver.
    destruct (cStarted _ && cSubscribed _ && negb (cClosed _)); simpl;
      repeat split; eauto.
  - repeat split; auto.
    + unfold Client.subscriberStep. repeat (case_match; simpl; auto).
    + unfold Client.subscriberStep. rewrite Hch.
      destruct (cStarted _ && cSubscribed _ && negb (cClosed _)); eauto.
      destruct (inbox _) as [|m rest]; eauto.
      destruct (GoChan.sendq ch); eauto.
      destruct (Client.accept env m) as [p|]; simpl; eauto.
      destruct (chansend_open ch p true Hcl) as (ch' & sel & -> & Hcl' & _).
      simpl. eauto.
  - unfold fanInStep, Client.GetPeerStatusUpdateCh. rewrite Hf, Hch.
    destruct (GoChan.chanrecv ch) as [p ch'| |] eqn:Hr.
    + destruct (chanrecv_elems _ _ _ Hr) as (_ & _ & Hcl').
      unfold putToPeerMap.
      match goal with |- context [notifyNewStatusEvent ?s] =>
        destruct (notifyNewStatusEvent_open s Hop) as (c & -> & Hc1 & _ & Hc2 & _)
      end.
      simpl. simpl in Hc2. rewrite Hc2.
      repeat split; auto. exists ch'. by rewrite Hcl'.
    + unfold GoChan.chanrecv in Hr. rewrite Hcl in Hr.
      destruct (GoChan.buf ch), (GoChan.sendq ch); done.
    + repeat split; eauto.
  - unfold publisherBegin.
    destruct (publisher w), (ticker w); simpl; repeat split; eauto.
  - unfold publisherTick.
    destruct (publisher w), (ticker w); simpl; repeat split; eauto.
  - unfold GoChan.park_receiver, GoChan.chanrecv. rewrite Hq, Hop.
    destruct (GoChan.buf _); simpl; repeat split; eauto.
Qed.

Lemma run_running (env : Env) (evs : list Event) (w : World) :
  EvClose ∉ evs -> running w -> running (run env w evs).
Proof.
  unfold run. revert w.
  induction evs as [|ev evs IH]; intros w Hev Hw; simpl; [done|].
  apply not_elem_of_cons in Hev as [Hne Hev].
  apply IH; [done|]. by apply step_running.
Qed.



Lemma step_idle (env : Env) (w : World) (ev : Event) :
  idle w -> idle (step env w ev).
Proof.
  intros (Hf & Hp & Hpub & Hm & Hco & Hsv).
  unfold idle, step. destruct (crashed w); [done|].
  destruct ev; simpl; try done.
  - unfold Client.deliver.
    destruct (cStarted _ && cSubscribed _ && negb (cClosed _)); done.
  - repeat split; auto.
    unfold Client.subscriberStep. repeat (case_match; simpl; auto).
  - unfold fanInStep. by rewrite Hf.
  - unfold publisherBegin. by rewrite Hp.
  - unfold publisherTick. by rewrite Hp.
  - unfold Close.
    destruct (GoChan.close _); simpl; [|done].
    destruct (serviceCloseErr env); simpl; done.
Qed.

Lemma run_idle (env : Env) (evs : list Event) (w : World) :
  idle w -> idle (run env w evs).
Proof.
  unfold run. revert w.
  induction evs as [|ev evs IH]; intros w Hw; simpl; [done|].
  by apply IH, step_idle.
Qed.

(** ** Close *)

Lemma Close_done_closed (env : Env) (s s' : syncer) (err : option error) :
  Close env s = Done (s', err) -> GoChan.closed (newStatusCh s') = true.
Proof.
  unfold Close. destruct (GoChan.close (newStatusCh s)) as [ch|] eqn:Hcl;
    [|done].
  apply close_done in Hcl. simpl.
  destruct (serviceCloseErr env); intros [= <- _]; exact Hcl.
Qed.

(** X1. [Close] cannot be called twice: once a call of [Close] has
    returned, with or without an error, the next call panics on the
    signal channel that is already closed, before it reaches the service
    or the client. *)
Theorem Close_twice_panics (env env' : Env) (s s' : syncer)
  (err : option error) :
  Close env s = Done (s', err) ->
  Close env' s' = Panic "close of closed channel".
Proof.
  intros Hcl%Close_done_closed. unfold Close, GoChan.close. by rewrite Hcl.
Qed.

Lemma Close_twice_panics_witness :
  (exists s', Close failingCloseEnv sampleSyncer
                = Done (s', Some "stream cancel failed") /\
              Close sampleEnv s' = Panic "close of closed channel").
Proof.
  eexists. split; [reflexivity|].
  eapply (Close_twice_panics failingCloseEnv sampleEnv sampleSyncer).
  reflexivity.
Defined.

(** X2. When the client fails to start, [Start] returns its error and
    leaves the node as it was: the service is not started and no goroutine
    is spawned, so that in every later run nothing is published, received
    or stored. *)
Theorem Start_failure_spawns_nothing (env : Env) (flag : bool)
  (h : list string) (store : EndpointApplication) (e : error)
  (evs : list Event) :
  clientStartErr env = Some e ->
  Start env flag (boot h store) = (boot h store, Some e) /\
  idle (run env (boot h store) evs).
Proof.
  intros He. split.
  - unfold Start, boot, Client.Start. simpl. by rewrite He.
  - apply run_idle. unfold idle, boot. simpl. done.
Qed.

Lemma Start_failure_spawns_nothing_witness :
  clientStartErr failingStartEnv = Some "topic subscription failed" /\
  Start failingStartEnv true (boot [] sampleEndpoint)
    = (boot [] sampleEndpoint, Some "topic subscription failed") /\
  idle (run failingStartEnv (boot [] sampleEndpoint)
          [EvOverlayMsg sampleStatus; EvSubscriber; EvFanIn; EvPublisher;
           EvTick; EvClose; EvTick]).
Proof.
  split; [reflexivity|].
  apply (Start_failure_spawns_nothing failingStartEnv true [] sampleEndpoint
           "topic subscription failed").
  reflexivity.
Defined.



(** X4. What the first round of the fan-in loop does after a [Close] whose
    service closed without error depends on the update channel alone: if
    no status is buffered on it the loop ends, and if one is, the loop
    receives it and panics on the closed signal channel. *)
Theorem fanIn_after_Close (env : Env) (flag : bool) (h : list string)
  (store : EndpointApplication) (w : World) (evs : list Event)
  (ch : GoChan.chan AppPeer) :
  Start env flag (boot h store) = (w, None) ->
  EvClose ∉ evs ->
  serviceCloseErr env = None ->
  peerStatusUpdateCh (syncAppPeerClient (sy (run env w evs))) = Some ch ->
  crashed (run env w (evs ++ [EvClose])) = None /\
  (GoChan.buf ch = [] ->
     fanIn (run env w (evs ++ [EvClose; EvFanIn])) = Exited /\
     crashed (run env w (evs ++ [EvClose; EvFanIn])) = None) /\
  (GoChan.buf ch <> [] ->
     crashed (run env w (evs ++ [EvClose; EvFanIn]))
       = Some "send on closed channel").
Proof.
  intros HS Hev He Hch.
  assert (Hrun : running (run env w evs))
    by (by apply run_running, (started_running env flag h store)).
  rewrite !run_app.
  destruct Hrun as (Hcr & Hop & Hq & Hf & Hcc & ch0 & Hch0 & Hcl).
  rewrite Hch in Hch0. injection Hch0 as <-.
  set (w0 := run env w evs) in *.
  assert (H1 : step env w0 EvClose =
    tick (withSyncer
      (withClient (Client.Close (syncAppPeerClient (sy w0)))
         (withService (fst (Service.Close env (syncAppPeerService (sy w0))))
            (withNewStatusCh
               {| GoChan.cap := GoChan.cap (newStatusCh (sy w0));
                  GoChan.buf := GoChan.buf (newStatusCh (sy w0));
                  GoChan.sendq := []; GoChan.recvq := 0;
                  GoChan.closed := true |} (sy w0)))) w0)).
  { unfold step. rewrite Hcr.
    unfold Close, GoChan.close, Service.Close. rewrite Hop, Hq, He. done. }
  change (run env w0 [EvClose]) with (step env w0 EvClose).
  change (run env w0 [EvClose; EvFanIn])
    with (step env (step env w0 EvClose) EvFanIn).
  rewrite H1. split; [done|].
  unfold step. simpl. rewrite Hcr.
  unfold fanInStep, Client.GetPeerStatusUpdateCh. simpl.
  rewrite Hf, Hch. unfold GoChan.chanrecv. simpl.
  split.
  - intros ->. done.
  - intros Hne. destruct (GoChan.buf ch) as [|p rest]; [done|]. done.
Qed.

Lemma fanIn_after_Close_witness :
  crashed (run sampleEnv (started sampleEnv true [] sampleEndpoint)
             ([EvOverlayMsg sampleStatus; EvSubscriber] ++ [EvClose])) = None /\
  (GoChan.buf
     {| GoChan.cap := 1; GoChan.buf := [Client.toAppPeer sampleStatus];
        GoChan.sendq := []; GoChan.recvq := 0; GoChan.closed := false |} = [] ->
   fanIn (run sampleEnv (started sampleEnv true [] sampleEndpoint)
            ([EvOverlayMsg sampleStatus; EvSubscriber] ++ [EvClose; EvFanIn]))
     = Exited /\
   crashed (run sampleEnv (started sampleEnv true [] sampleEndpoint)
              ([EvOverlayMsg sampleStatus; EvSubscriber] ++ [EvClose; EvFanIn]))
     = None) /\
  (GoChan.buf
     {| GoChan.cap := 1; GoChan.buf := [Client.toAppPeer sampleStatus];
        GoChan.sendq := []; GoChan.recvq := 0; GoChan.closed := false |} <> [] ->
   crashed (run sampleEnv (started sampleEnv true [] sampleEndpoint)
              ([EvOverlayMsg sampleStatus; EvSubscriber] ++ [EvClose; EvFanIn]))
     = Some "send on closed channel").
Proof.
  apply (fanIn_after_Close sampleEnv true [] sampleEndpoint).
  - reflexivity.
  - rewrite !not_elem_of_cons. repeat split; try discriminate.
    apply not_elem_of_nil.
  - reflexivity.
  - reflexivity.
Defined.

(** ** The signal and the peer map *)

Lemma run_signal_shape (env : Env) (flag : bool) (h : list string)
  (store : EndpointApplication) (evs : list Event) :
  GoChan.cap (newStatusCh (sy (run env (started env flag h store) evs))) = 0 /\
  GoChan.buf (newStatusCh (sy (run env (started env flag h store) evs))) = [] /\
  GoChan.sendq (newStatusCh (sy (run env (started env flag h store) evs))) = [].
Proof.
  assert (H0 : GoChan.cap (newStatusCh (sy (started env flag h store))) = 0 /\
               GoChan.buf (newStatusCh (sy (started env flag h store))) = [] /\
               GoChan.sendq (newStatusCh (sy (started env flag h store))) = []).
  { unfold started, Start, boot, Client.Start. simpl.
    destruct (clientStartErr env); simpl; auto. }
  unfold run. revert H0. generalize (started env flag h store).
  induction evs as [|ev evs IH]; intros w Hw; simpl; [apply Hw|].
  by apply IH, step_signal.
Qed.

(** X5. A pulse is never remembered. In every run the signal channel holds
    no pending signal, and while it is open [notifyNewStatusEvent] returns
    normally without touching the peer map: it releases one observer that
    is already waiting, and with no observer waiting the pulse is lost. *)
Theorem pulse_is_never_remembered (env : Env) (flag : bool) (h : list string)
  (store : EndpointApplication) (evs : list Event) :
  let s := sy (run env (started env flag h store) evs) in
  GoChan.buf (newStatusCh s) = [] /\
  (GoChan.closed (newStatusCh s) = false ->
   exists s',
     notifyNewStatusEvent s = Done s' /\
     peerMap s' = peerMap s /\
     GoChan.buf (newStatusCh s') = [] /\
     GoChan.recvq (newStatusCh s') = pred (GoChan.recvq (newStatusCh s))).
Proof.
  simpl.
  destruct (run_signal_shape env flag h store evs) as (Hcap & Hbuf & Hq).
  split; [done|]. intros Hop.
  unfold notifyNewStatusEvent, GoChan.chansend.
  rewrite Hop, Hcap, Hbuf. simpl.
  destruct (GoChan.recvq _) eqn:Hr; simpl;
    eexists; (split; [reflexivity|]); simpl; rewrite ?Hr; auto.
Qed.

(** X6. [putToPeerMap] on a syncer whose signal channel is open returns
    normally; [GetAppPeer] then finds the stored status under its
    identifier and finds under every other identifier what it found
    before, and after [removeFromPeerMap] it finds nothing. ([PeerMap] as
    described for the missing file.) *)
Theorem putToPeerMap_then_GetAppPeer (now : Z) (status : AppPeer)
  (s : syncer) :
  GoChan.closed (newStatusCh s) = false ->
  exists s',
    putToPeerMap now status s = Done s' /\
    GetAppPeer (peer_String (ID status)) s' = Some (seen now status) /\
    (forall id, id <> peer_String (ID status) ->
                GetAppPeer id s' = GetAppPeer id s) /\
    GetAppPeer (peer_String (ID status)) (removeFromPeerMap (ID status) s')
      = None.
Proof.
  intros Hop. unfold putToPeerMap.
  match goal with |- context [notifyNewStatusEvent ?t] =>
    destruct (notifyNewStatusEvent_open t Hop) as (c & -> & _)
  end.
  eexists. split; [reflexivity|].
  unfold GetAppPeer, removeFromPeerMap, PeerMap.Get, PeerMap.Remove,
    PeerMap.Put, peer_String. simpl.
  split; [apply lookup_insert_eq|]. split.
  - intros id Hid. by apply lookup_insert_ne.
  - apply lookup_delete_eq.
Qed.

Lemma putToPeerMap_then_GetAppPeer_witness :
  exists s',
    putToPeerMap 7 (Client.toAppPeer sampleStatus) sampleSyncer = Done s' /\
    GetAppPeer (peer_String (ID (Client.toAppPeer sampleStatus))) s'
      = Some (seen 7 (Client.toAppPeer sampleStatus)) /\
    (forall id, id <> peer_String (ID (Client.toAppPeer sampleStatus)) ->
                GetAppPeer id s' = GetAppPeer id sampleSyncer) /\
    GetAppPeer (peer_String (ID (Client.toAppPeer sampleStatus)))
      (removeFromPeerMap (ID (Client.toAppPeer sampleStatus)) s') = None.
Proof.
  apply (putToPeerMap_then_GetAppPeer 7 (Client.toAppPeer sampleStatus)
           sampleSyncer).
  reflexivity.
Defined.

Lemma Put_snoc (now : Z) (l : list AppPeer) (x : AppPeer)
  (m : gmap string AppPeer) :
  PeerMap.Put now (l ++ [x]) m
  = <[peer_String (ID x) := seen now x]> (PeerMap.Put now l m).
Proof. unfold PeerMap.Put. by rewrite foldl_app. Qed.

Lemma Put_lookup (now : Z) (l : list AppPeer) (m : gmap string AppPeer)
  (k : string) :
  (exists q, q ∈ l /\ ID q = k /\ PeerMap.Put now l m !! k = Some (seen now q)) \/
  ((forall q, q ∈ l -> ID q <> k) /\ PeerMap.Put now l m !! k = m !! k).
Proof.
  induction l as [|x l IH] using rev_ind.
  - right. split; [set_solver|done].
  - rewrite Put_snoc. unfold peer_String.
    destruct (decide (ID x = k)) as [<-|Hne].
    + left. exists x. rewrite lookup_insert_eq. set_solver.
    + rewrite lookup_insert_ne by done.
      destruct IH as [(q & Hq & Hid & Hl)|[Hall Hl]].
      * left. exists q. set_solver.
      * right. split; [|done].
        intros q [Hq|Hq]%elem_of_app; [by apply Hall|].
        apply list_elem_of_singleton in Hq as ->. done.
Qed.

(** X7. [initializePeerMap] polls the connected peers once and stores what
    the poll answers: every polled peer then has an entry, which is a
    polled status of that peer, identifiers that were not polled keep what
    they had, and the signal channel is not pulsed. ([PeerMap] as described
    for the missing file.) *)
Theorem initializePeerMap_entries (env : Env) (now : Z) (s : syncer) :
  polls (syncAppPeerClient (initializePeerMap env now s))
    = S (polls (syncAppPeerClient s)) /\
  newStatusCh (initializePeerMap env now s) = newStatusCh s /\
  (forall p, p ∈ connectedPeerStatuses env ->
     exists q, q ∈ connectedPeerStatuses env /\ ID q = ID p /\
               GetAppPeer (peer_String (ID p)) (initializePeerMap env now s)
                 = Some (seen now q)) /\
  (forall id, (forall q, q ∈ connectedPeerStatuses env -> ID q <> id) ->
     GetAppPeer id (initializePeerMap env now s) = GetAppPeer id s).
Proof.
  unfold initializePeerMap, GetAppPeer, PeerMap.Get, peer_String. simpl.
  split; [done|]. split; [done|]. split.
  - intros p Hp.
    destruct (Put_lookup now (connectedPeerStatuses env) (peerMap s) (ID p))
      as [(q & Hq & Hid & Hl)|[Hall _]]; [by eauto|].
    by destruct (Hall p Hp).
  - intros id Hall.
    destruct (Put_lookup now (connectedPeerStatuses env) (peerMap s) id)
      as [(q & Hq & Hid & _)|[_ Hl]]; [|done].
    by destruct (Hall q Hq).
Qed.

(** With one connected peer [P] the poll stores its status. *)
Example initializePeerMap_sample :
  GetAppPeer "P" (initializePeerMap pollingEnv 3 sampleSyncer)
  = Some (seen 3 (Client.toAppPeer sampleStatus)).
Proof. vm_compute. reflexivity. Qed.

Lemma step_lastWins (env : Env) (w : World) (ev : Event) :
  lastWins w -> lastWins (step env w ev).
Proof.
  intros [Hlast Hall]. unfold lastWins.
  destruct (step_peerMap env w ev) as [[-> ->]|(ch&q0&ch'&_&_&->&->)];
    [done|].
  split.
  - intros k p. rewrite lookup_insert. case_decide as Hk.
    + intros [= <-]. exists (clock w), q0, (consumed w), [].
      repeat split; [done|]. set_solver.
    + intros (now & q & pre & post & Hc & Hid & Hp & Hpost)%Hlast.
      exists now, q, pre, (post ++ [q0]).
      rewrite Hc, <- app_assoc. simpl. repeat split; [done..|].
      intros q' [Hq'|Hq']%elem_of_app; [by apply Hpost|].
      apply list_elem_of_singleton in Hq' as ->. done.
  - intros q [Hq|Hq]%elem_of_app.
    + rewrite lookup_insert. case_decide; [done|]. by apply Hall.
    + apply list_elem_of_singleton in Hq as ->. by rewrite lookup_insert_eq.
Qed.

(** X14. The last status received wins, and nothing is ever evicted: in
    every run of a node from its start the entry of an identifier is the
    status that the fan-in loop received last for it, whatever the
    statuses say about their own age, and every peer for which a status
    was received still has an entry. ([PeerMap] as described for the
    missing file.) *)
Theorem last_status_wins (env : Env) (flag : bool) (h : list string)
  (store : EndpointApplication) (evs : list Event) :
  lastWins (run env (started env flag h store) evs).
Proof.
  assert (H0 : lastWins (started env flag h store)).
  { destruct (started_fresh env flag h store) as (Hm & Hc & _).
    unfold lastWins. rewrite Hm, Hc. split; [|set_solver].
    intros k p. by rewrite lookup_empty. }
  unfold run. revert H0. generalize (started env flag h store).
  induction evs as [|ev evs IH]; intros w Hw; simpl; [done|].
  by apply IH, step_lastWins.
Qed.

(** ** Application.Copy *)

(** Copying a copy changes nothing more: [Copy] is idempotent. *)
Lemma Copy_idempotent (a : Application) : Copy (Copy a) = Copy a.
Proof. reflexivity. Qed.

(** X8. [Copy] returns an application equal to the original exactly when
    the original's [ModelHash], [Mac], [MemInfo] and [CpuInfo] are all
    empty. *)
Theorem Copy_identity_iff (a : Application) :
  Copy a = a <->
  ModelHash a = "" /\ Mac a = "" /\ MemInfo a = "" /\ CpuInfo a = "".
Proof.
  split.
  - intros H. repeat split.
    + by rewrite <- H.
    + by rewrite <- H.
    + by rewrite <- H.
    + by rewrite <- H.
  - destruct a. simpl. intros (-> & -> & -> & ->). reflexivity.
Qed.

(** ** MinerRegisterResult *)

Lemma append_assoc (s1 s2 s3 : string) :
  (s1 +:+ s2) +:+ s3 = s1 +:+ (s2 +:+ s3).
Proof.
  induction s1 as [|c s1 IH]; [done|].
  change (String c ((s1 +:+ s2) +:+ s3) = String c (s1 +:+ (s2 +:+ s3))).
  by rewrite IH.
Qed.

Lemma Message_ends_in_line_feed (setOpt : string)
  (r : register.MinerRegisterResult) :
  exists body,
    register.Message setOpt r
    = body +:+ register.ResultMessge r +:+ " " +:+ register.LF.
Proof.
  unfold register.Message. case_decide.
  - eexists. rewrite <- !append_assoc. reflexivity.
  - eexists. rewrite <- !append_assoc. reflexivity.
Qed.

(** X9. Whatever the result holds, the message that [MarshalJSON] writes
    between the double quotes ends with the result message, a space and a
    raw line feed: the bytes it returns carry a control character inside
    the JSON string, and the result message is spliced in as it is. The
    error it returns is always nil. *)
Theorem MarshalJSON_raw_line_feed (setOpt : string)
  (r : register.MinerRegisterResult) :
  exists body,
    register.MarshalJSON setOpt r
    = ("{" +:+ register.DQ +:+ "message" +:+ register.DQ +:+ ": "
         +:+ register.DQ
         +:+ (body +:+ register.ResultMessge r +:+ " " +:+ register.LF)
         +:+ register.DQ +:+ "}", None).
Proof.
  destruct (Message_ends_in_line_feed setOpt r) as [body Hb].
  exists body. unfold register.MarshalJSON. by rewrite Hb.
Qed.

(** X10. Every value of [Commit] other than [setOpt], also one that is no
    option at all, is reported as a removal: the output of [GetOutput]
    then depends on the result message alone, and not on the principal,
    the node type or the commit. *)
Theorem GetOutput_removal_by_default (setOpt : string)
  (r r' : register.MinerRegisterResult) :
  register.Commit r <> setOpt ->
  register.Commit r' <> setOpt ->
  register.ResultMessge r = register.ResultMessge r' ->
  register.GetOutput setOpt r = register.GetOutput setOpt r' /\
  register.GetOutput setOpt r
  = register.LF +:+ "[MINER REGISTER]" +:+ register.LF
      +:+ "Commit for the removal node from the miner set" +:+ register.LF
      +:+ register.ResultMessge r +:+ " " +:+ register.LF +:+ register.LF.
Proof.
  intros Hr Hr' Hm. unfold register.GetOutput, register.Message.
  repeat case_decide; try done. rewrite Hm. split; [done|].
  rewrite !append_assoc. reflexivity.
Qed.

Lemma GetOutput_removal_by_default_witness :
  register.GetOutput "set"
    {| register.Principal := "aaaa-bbbb"; register.Commit := "remove";
       register.NodeType := "router"; register.ResultMessge := "ok" |}
  = register.GetOutput "set"
      {| register.Principal := ""; register.Commit := "sett";
         register.NodeType := ""; register.ResultMessge := "ok" |} /\
  register.GetOutput "set"
    {| register.Principal := "aaaa-bbbb"; register.Commit := "remove";
       register.NodeType := "router"; register.ResultMessge := "ok" |}
  = register.LF +:+ "[MINER REGISTER]" +:+ register.LF
      +:+ "Commit for the removal node from the miner set" +:+ register.LF
      +:+ "ok" +:+ " " +:+ register.LF +:+ register.LF.
Proof.
  apply (GetOutput_removal_by_default "set"
           {| register.Principal := "aaaa-bbbb"; register.Commit := "remove";
              register.NodeType := "router"; register.ResultMessge := "ok" |}
           {| register.Principal := ""; register.Commit := "sett";
              register.NodeType := ""; register.ResultMessge := "ok" |});
    simpl; (discriminate || reflexivity).
Defined.

(** ** Account lookups of the telepool hub *)

(** X11. [getAccountImpl] returns an account or an error and never both
    nil: a nil account without error from the snapshot is turned into the
    not-found sentinel, and an account that comes with an error is
    dropped. *)
Theorem getAccountImpl_account_or_error (state : server.State)
  (root addr : string) :
  (exists account,
     server.getAccountImpl state root addr = (Some account, None) /\
     exists snap, server.NewSnapshotAt state root = inl snap /\
                  server.GetAccount snap addr = (Some account, None)) \/
  (exists err, server.getAccountImpl state root addr = (None, Some err)).
Proof.
  unfold server.getAccountImpl.
  destruct (server.NewSnapshotAt state root) as [snap|err]; [|by eauto].
  destruct (server.GetAccount snap addr) as [[account|] [err|]] eqn:Hg;
    eauto.
  left. eauto.
Qed.

(** X12. The lookups of the telepool hub never dereference a nil account:
    [GetNonce] and [GetBalance] always return. [GetNonce] answers 0 on
    every failure, and [GetBalance] answers a zero balance on every
    failure, without an error exactly when the failure is, or wraps, the
    not-found sentinel. *)
Theorem hub_lookups_return (state : server.State) (root addr : string) :
  (exists n, server.GetNonce state root addr = Done n /\
     (forall err, server.getAccountImpl state root addr = (None, Some err) ->
                  n = 0%Z)) /\
  (exists b e, server.GetBalance state root addr = Done (b, e) /\
     (forall err, server.getAccountImpl state root addr = (None, Some err) ->
        b = Some 0%Z /\
        (e = None <-> server.isStateNotFound err = true) /\
        (e <> None -> e = Some err))).
Proof.
  unfold server.GetNonce, server.GetBalance.
  destruct (getAccountImpl_account_or_error state root addr)
    as [(account & -> & _)|(err & ->)].
  - split; eexists; [|eexists]; (split; [reflexivity|]); intros; done.
  - split.
    + eexists. split; [reflexivity|]. done.
    + destruct (server.isStateNotFound err) eqn:Hnf;
        eexists _, _; (split; [reflexivity|]);
        intros err' [= <-]; rewrite Hnf; repeat split; try done.
Qed.

(** X13. For an address without account in the snapshot the hub answers a
    nonce of 0 and a balance of 0 without error; and when the snapshot
    itself cannot be opened for a reason that wraps the not-found
    sentinel, [GetBalance] hides that failure too and answers a balance of
    0 without error. *)
Theorem GetBalance_not_found_is_zero (state : server.State)
  (root addr : string) :
  (forall snap, server.NewSnapshotAt state root = inl snap ->
     server.GetAccount snap addr = (None, None) ->
     server.GetNonce state root addr = Done 0%Z /\
     server.GetBalance state root addr = Done (Some 0%Z, None)) /\
  (forall err, server.NewSnapshotAt state root = inr err ->
     server.isStateNotFound err = true ->
     server.GetNonce state root addr = Done 0%Z /\
     server.GetBalance state root addr = Done (Some 0%Z, None)).
Proof.
  unfold server.GetNonce, server.GetBalance, server.getAccountImpl.
  split.
  - intros snap -> ->. done.
  - intros err -> Hnf. simpl. by rewrite Hnf.
Qed.

Lemma GetBalance_not_found_is_zero_witness :
  (server.GetNonce emptyState "0xroot" "0xaddr" = Done 0%Z /\
   server.GetBalance emptyState "0xroot" "0xaddr" = Done (Some 0%Z, None)) /\
  (server.GetNonce unreadableState "0xroot" "0xaddr" = Done 0%Z /\
   server.GetBalance unreadableState "0xroot" "0xaddr"
     = Done (Some 0%Z, None)).
Proof.
  split.
  - apply (proj1 (GetBalance_not_found_is_zero emptyState "0xroot" "0xaddr")
             {| server.GetAccount := fun _ => (None, None) |});
      reflexivity.
  - apply (proj2 (GetBalance_not_found_is_zero unreadableState "0xroot"
                    "0xaddr")
             (server.ErrWrap "trie root" server.ErrStateNotFound));
      reflexivity.
Defined.
